(** * NexusTask: permission resolution and token revocation

    A shallow embedding of [backend/services/permissions.py] and
    [backend/core/token_blacklist.py], followed by the properties proved
    about them.

    Python integers are [Z]; strings are [string]; [None] is [option]'s
    [None].  Code that talks to the database or to Redis, reads the clock
    or writes to the logger is written in a small state-and-exception
    monad over an explicit world. *)

From stdpp Require Import base option list gmap strings pretty.
From Stdlib Require Import ZArith Lia.

Local Open Scope string_scope.
Local Open Scope Z_scope.

(** ** Computations

    A Python call either returns a value or raises; either way it leaves a
    world behind.  [M W A] is a computation over worlds [W] returning [A]. *)

Inductive outcome (A : Type) :=
| Returned (a : A)
| Raised (e : string).
Arguments Returned {A} a.
Arguments Raised {A} e.

Definition M (W A : Type) : Type := W → outcome A * W.

#[export] Instance M_ret {W} : MRet (M W) := λ A a w, (Returned a, w).

#[export] Instance M_bind {W} : MBind (M W) := λ A B f m w,
  match m w with
  | (Returned a, w') => f a w'
  | (Raised e, w') => (Raised e, w')
  end.

(** [try: body  except Exception as e: handler(e)] *)
Definition try_except {W A} (body : M W A) (handler : string → M W A) : M W A :=
  λ w, match body w with
       | (Returned a, w') => (Returned a, w')
       | (Raised e, w') => handler e w'
       end.

Definition value {W A} (m : M W A) (w : W) : outcome A := (m w).1.
Definition world_after {W A} (m : M W A) (w : W) : W := (m w).2.

(** ** Part I.  [services/permissions.py] *)

Module permissions.

(** *** ORM rows ([models_legacy.py]), restricted to the columns read here.
    Every column below except [Task.assigned_to] is [nullable=False]. *)

Record Project := mkProject {
  p_id : Z;                     (* Project.id, primary key *)
  p_name : string;              (* Project.name *)
  p_owner_id : Z                (* Project.owner_id *)
}.

Record ProjectMember := mkProjectMember {
  m_id : Z;                     (* ProjectMember.id, primary key *)
  m_user_id : Z;                (* ProjectMember.user_id *)
  m_project_id : Z;             (* ProjectMember.project_id *)
  m_role : string               (* ProjectMember.role *)
}.

Record Task := mkTask {
  t_id : Z;                     (* Task.id, primary key *)
  t_project_id : Z;             (* Task.project_id *)
  t_assigned_to : option Z;     (* Task.assigned_to, nullable *)
  t_created_by : Z              (* Task.created_by *)
}.

(** *** The datastore

    The three tables, and a fault oracle saying which queries raise (and
    with which message) when they are issued.  A query is named by the
    rows it asks for, not by its load options: the lookup of a project by
    primary key is one query, with or without [joinedload(Project.owner)],
    and the oracle makes both raise or neither. *)

Inductive query :=
| ProjectGet (project_id : Z)
    (* Project.query[.options(...)].get(project_id) *)
| ProjectMemberFirst (project_id user_id : Z) (role : option string)
    (* ProjectMember.query.filter_by(project_id=, user_id=[, role=]).first() *)
| TaskGet (task_id : Z).
    (* Task.query.get(task_id) *)

Record Datastore := mkDatastore {
  projects : list Project;
  project_members : list ProjectMember;
  tasks : list Task;
  fault : query → option string
}.

Inductive event :=
| Queried (q : query)
| LoggedError (msg : string).

Record World := mkWorld {
  db : Datastore;
  events : list event           (* oldest first *)
}.

Definition record (ev : event) (w : World) : World :=
  {| db := db w; events := events w ++ [ev] |}.

(** [logger.error(msg, exc_info=True)] *)
Definition logger_error (msg : string) : M World unit :=
  λ w, (Returned tt, record (LoggedError msg) w).

(** Issuing a query: it is recorded, then it either raises (the oracle)
    or answers from the tables. *)
Definition run_query {A} (q : query) (answer : Datastore → A) : M World A :=
  λ w, let w' := record (Queried q) w in
       match fault (db w) q with
       | Some e => (Raised e, w')
       | None => (Returned (answer (db w)), w')
       end.

(** Events appended by running [m] from [w]. *)
Definition emitted {A} (m : M World A) (w : World) : list event :=
  drop (length (events w)) (events (world_after m w)).

(** *** The ORM queries of the module *)

Definition Project_query_get (project_id : Z) : M World (option Project) :=
  run_query (ProjectGet project_id)
    (λ d, find (λ p, p_id p =? project_id) (projects d)).

Definition role_filter (role : option string) (m : ProjectMember) : bool :=
  match role with
  | None => true
  | Some r => bool_decide (m_role m = r)
  end.

Definition ProjectMember_query_filter_by_first
    (project_id user_id : Z) (role : option string) : M World (option ProjectMember) :=
  run_query (ProjectMemberFirst project_id user_id role)
    (λ d, find (λ m, (m_project_id m =? project_id)
                     && (m_user_id m =? user_id)
                     && role_filter role m)
               (project_members d)).

Definition Task_query_get (task_id : Z) : M World (option Task) :=
  run_query (TaskGet task_id)
    (λ d, find (λ t, t_id t =? task_id) (tasks d)).

(** *** [check_project_access] (permissions.py:99-234) *)

Definition check_project_access (project_id user_id : Z)
  : M World (bool * option Project * option string) :=
  try_except
    (project ← Project_query_get project_id;
     match project with
     | None => mret (false, None, None)
     | Some project =>
         if p_owner_id project =? user_id
         then mret (true, Some project, Some "owner")
         else
           member ← ProjectMember_query_filter_by_first project_id user_id None;
           match member with
           | Some member => mret (true, Some project, Some (m_role member))
           | None => mret (false, None, None)
           end
     end)
    (λ e, logger_error ("Error checking project access: " +:+ e);;
          mret (false, None, None)).

(** *** [check_project_admin] (permissions.py:237-312) *)

Definition check_project_admin (project_id user_id : Z) : M World bool :=
  try_except
    (project ← Project_query_get project_id;
     match project with
     | None => mret false
     | Some project =>
         if p_owner_id project =? user_id
         then mret true
         else
           member ← ProjectMember_query_filter_by_first
                      project_id user_id (Some "admin");
           mret (bool_decide (member ≠ None))
     end)
    (λ e, logger_error ("Error checking project admin: " +:+ e);;
          mret false).

(** *** [check_project_member] (permissions.py:315-355) *)

Definition check_project_member (project_id user_id : Z) : M World bool :=
  '(has_access, _, _) ← check_project_access project_id user_id;
  mret has_access.

(** *** [check_task_access] (permissions.py:362-430) *)

Definition check_task_access (task_id user_id : Z)
  : M World (bool * option Task * option string) :=
  try_except
    (task ← Task_query_get task_id;
     match task with
     | None => mret (false, None, None)
     | Some task =>
         '(has_access, _, role) ← check_project_access (t_project_id task) user_id;
         if has_access : bool
         then mret (true, Some task, role)
         else mret (false, None, None)
     end)
    (λ e, logger_error ("Error checking task access: " +:+ e);;
          mret (false, None, None)).

(** *** [can_modify_task] (permissions.py:433-531) *)

Definition can_modify_task (task_id user_id : Z) : M World (bool * option Task) :=
  try_except
    (task ← Task_query_get task_id;
     match task with
     | None => mret (false, None)
     | Some task =>
         if (t_created_by task =? user_id)
            || bool_decide (t_assigned_to task = Some user_id)
         then mret (true, Some task)
         else
           is_admin ← check_project_admin (t_project_id task) user_id;
           if is_admin : bool
           then mret (true, Some task)
           else mret (false, None)
     end)
    (λ e, logger_error ("Error checking task modification permission: " +:+ e);;
          mret (false, None)).

(** *** The reference definition of the specification

    [resolve_project_access] is written from the specification's four
    steps, over the tables, to be compared with [check_project_access]. *)

Definition deny3 {A} : bool * option A * option string := (false, None, None).

Definition resolve_project_access (d : Datastore) (project_id user_id : Z)
  : bool * option Project * option string :=
  match head (filter (λ P, p_id P = project_id) (projects d)) with
  | None => deny3
  | Some P =>
      if decide (p_owner_id P = user_id) then (true, Some P, Some "owner")
      else
        match head (filter (λ r, m_project_id r = project_id ∧ m_user_id r = user_id)
                           (project_members d)) with
        | Some r => (true, Some P, Some (m_role r))
        | None => deny3
        end
  end.

(** *** Healthy stores and the schema's constraints *)

(** No query raises. *)
Definition healthy (d : Datastore) : Prop := ∀ q, fault d q = None.

(** Primary keys of [Project] and [Task], and
    [UniqueConstraint('project_id', 'user_id', name='unique_project_member')]. *)
Definition unique_project_member (d : Datastore) : Prop :=
  ∀ r r', r ∈ project_members d → r' ∈ project_members d →
          m_project_id r = m_project_id r' → m_user_id r = m_user_id r' → r = r'.

Definition integrity (d : Datastore) : Prop :=
  NoDup (p_id <$> projects d) ∧ NoDup (t_id <$> tasks d) ∧ unique_project_member d.

(** A membership row of [user_id] in [project_id]. *)
Definition member_row (d : Datastore) (project_id user_id : Z) (r : ProjectMember) : Prop :=
  r ∈ project_members d ∧ m_project_id r = project_id ∧ m_user_id r = user_id.

(** The condition of [can_modify_task] on a task [T], as the specification
    words it. *)
Definition may_modify (w : World) (T : Task) (user_id : Z) : Prop :=
  t_created_by T = user_id
  ∨ t_assigned_to T = Some user_id
  ∨ value (check_project_admin (t_project_id T) user_id) w = Returned true.

(** Some query issued while running [m] from [w] raised. *)
Definition query_raised {A} (m : M World A) (w : World) : Prop :=
  ∃ q e, Queried q ∈ emitted m w ∧ fault (db w) q = Some e.

(** [m] fails closed from [w]: it returns (it never raises), it leaves the
    store as it was, and when a query it issued raised it returns
    [fallback], having logged an error. *)
Definition fails_closed {A} (m : M World A) (w : World) (fallback : A) : Prop :=
  ∃ r, value m w = Returned r
       ∧ db (world_after m w) = db w
       ∧ (query_raised m w →
          r = fallback ∧ ∃ msg, LoggedError msg ∈ emitted m w).

(** *** Sample stores (the scenarios of the specification) *)

Definition no_fault : query → option string := λ _, None.

Definition project7 : Project := mkProject 7 "NexusTask" 1.
Definition task42 : Task := mkTask 42 7 None 2.

(** Project 7 owned by user 1; user 2 and 4 plain members, user 3 admin;
    task 42 in project 7 created by user 2, unassigned. *)
Definition demo_db : Datastore :=
  {| projects := [project7];
     project_members :=
       [mkProjectMember 1 2 7 "member"; mkProjectMember 2 3 7 "admin";
        mkProjectMember 3 4 7 "member"];
     tasks := [task42];
     fault := no_fault |}.

(** The same, with an (unconventional) membership row for the owner. *)
Definition owner_row_db : Datastore :=
  {| projects := [project7];
     project_members := [mkProjectMember 9 1 7 "member"];
     tasks := [task42];
     fault := no_fault |}.

(** The same tables behind a database that is down: every query raises. *)
Definition down_db : Datastore :=
  {| projects := projects demo_db;
     project_members := project_members demo_db;
     tasks := tasks demo_db;
     fault := λ _, Some "OperationalError" |}.

(** Only the membership table is unreachable. *)
Definition member_down_db : Datastore :=
  {| projects := projects demo_db;
     project_members := project_members demo_db;
     tasks := tasks demo_db;
     fault := λ q, match q with
                   | ProjectMemberFirst _ _ _ => Some "OperationalError"
                   | _ => None
                   end |}.

Definition fresh (d : Datastore) : World := {| db := d; events := [] |}.

End permissions.

(** ** Part II.  [core/token_blacklist.py] *)

Module token_blacklist.

(** Times are integers: microseconds (the resolution of [datetime] and
    [timedelta]) since the Unix epoch. *)
Definition timedelta_hours (h : Z) : Z := h * 3600 * 1000000.

(** [datetime.min] is 0001-01-01T00:00:00 and [datetime.max] is
    9999-12-31T23:59:59.999999. *)
Definition datetime_min : Z := -62135596800000000.
Definition datetime_max : Z := 253402300799999999.

Definition representable (t : Z) : Prop := datetime_min ≤ t ≤ datetime_max.

#[export] Instance representable_dec (t : Z) : Decision (representable t) :=
  decide (datetime_min ≤ t ∧ t ≤ datetime_max).

(** [datetime + timedelta]: addition, raising [OverflowError] when the
    result leaves the range of [datetime]. *)
Definition datetime_add {W} (t delta : Z) : M W Z :=
  λ w, if bool_decide (representable (t + delta))
       then (Returned (t + delta), w)
       else (Raised "OverflowError: date value out of range", w).
Arguments datetime_add : simpl never.

(** *** The external store

    The Redis client is an interface: the three commands the module
    issues, each a computation over the server's state [R] that may
    raise (connection errors and the like). *)
Class RedisClient (R : Type) := {
  setex : string → Z → Z → M R unit;     (* setex(key, ttl, value) *)
  exists_ : string → M R Z;              (* exists(key): number of keys found *)
  delete : string → M R Z                (* delete(key): number of keys removed *)
}.

Inductive log_record :=
| Debug (msg : string)
| Warning (msg : string).

Section blacklist.
Context {R : Type} `{RedisClient R}.

(** The world of the module: the class variable [_memory_store], what
    [current_app.extensions] holds under ['redis'] ([None] also when there
    is no application context or no such extension), the clock as the
    sequence of values successive [datetime.utcnow()] calls return, and
    the log. *)
Record World := mkWorld {
  memory_store : gmap string Z;
  redis : option R;
  clock : nat → Z;
  clock_reads : nat;
  log : list log_record
}.

(** [datetime.utcnow()] *)
Definition utcnow : M World Z :=
  λ w, (Returned (clock w (clock_reads w)),
        {| memory_store := memory_store w; redis := redis w; clock := clock w;
           clock_reads := S (clock_reads w); log := log w |}).

Definition logger_emit (r : log_record) : M World unit :=
  λ w, (Returned tt,
        {| memory_store := memory_store w; redis := redis w; clock := clock w;
           clock_reads := clock_reads w; log := log w ++ [r] |}).

Definition get_memory_store : M World (gmap string Z) :=
  λ w, (Returned (memory_store w), w).

Definition put_memory_store (s : gmap string Z) : M World unit :=
  λ w, (Returned tt,
        {| memory_store := s; redis := redis w; clock := clock w;
           clock_reads := clock_reads w; log := log w |}).

(** A command sent through the client [client]. *)
Definition redis_call {A} (client : R) (command : M R A) : M World A :=
  λ w, let '(o, r') := command client in
       (o, {| memory_store := memory_store w; redis := Some r'; clock := clock w;
              clock_reads := clock_reads w; log := log w |}).

Definition redis_key (jti : string) : string := "token_blacklist:" +:+ jti.

(** *** [TokenBlacklist._get_redis_client] (token_blacklist.py:341-377) *)
Definition _get_redis_client : M World (option R) :=
  λ w, (Returned (redis w), w).

(** *** [TokenBlacklist._cleanup_expired] (token_blacklist.py:379-419) *)
Definition expired_keys (now : Z) (store : gmap string Z) : list string :=
  (filter (λ kv, kv.2 ≤ now) (map_to_list store)).*1.

Definition _cleanup_expired : M World unit :=
  now ← utcnow;
  store ← get_memory_store;
  let expired_keys := expired_keys now store in
  put_memory_store (foldl (λ s jti, base.delete jti s) store expired_keys);;
  match expired_keys with
  | [] => mret tt
  | _ => logger_emit (Debug ("Cleaned up " +:+ pretty (length expired_keys)
                             +:+ " expired tokens from memory blacklist"))
  end.

(** *** [TokenBlacklist.add] (token_blacklist.py:132-227)

    The expiry is computed before the [try], so an [OverflowError] of that
    addition reaches the caller.  The [try] block yields [true] when it ran
    into its [return True]. *)
Definition add (jti : string) (expires_delta : option Z) : M World bool :=
  let expires_delta := default (timedelta_hours 24) expires_delta in
  now ← utcnow;
  expires_at ← datetime_add now expires_delta;
  returned ← try_except
    (redis_client ← _get_redis_client;
     match redis_client with
     | Some client =>
         let key := redis_key jti in
         stamp ← utcnow;
         redis_call client (setex key expires_delta stamp);;
         logger_emit (Debug ("Token " +:+ String.substring 0 8 jti
                             +:+ "... added to Redis blacklist"));;
         mret true
     | None => mret false
     end)
    (λ e, logger_emit (Warning ("Redis not available, using memory store: " +:+ e));;
          mret false);
  if returned : bool then mret true
  else
    store ← get_memory_store;
    put_memory_store (<[jti := expires_at]> store);;
    _cleanup_expired;;
    logger_emit (Debug ("Token " +:+ String.substring 0 8 jti
                        +:+ "... added to memory blacklist"));;
    mret true.

(** *** [TokenBlacklist.is_blacklisted] (token_blacklist.py:229-298)

    The [try] block yields [Some b] when it ran into its [return]. *)
Definition is_blacklisted (jti : string) : M World bool :=
  returned ← try_except
    (redis_client ← _get_redis_client;
     match redis_client with
     | Some client =>
         let key := redis_key jti in
         n ← redis_call client (exists_ key);
         mret (Some (bool_decide (n > 0)))
     | None => mret None
     end)
    (λ _, mret None);
  match returned with
  | Some b => mret b
  | None =>
      store ← get_memory_store;
      match store !! jti with
      | Some expires_at =>
          now ← utcnow;
          if bool_decide (expires_at > now) then mret true
          else
            store ← get_memory_store;
            put_memory_store (base.delete jti store);;
            mret false
      | None => mret false
      end
  end.

(** *** [TokenBlacklist.remove] (token_blacklist.py:300-339) *)
Definition remove (jti : string) : M World bool :=
  returned ← try_except
    (redis_client ← _get_redis_client;
     match redis_client with
     | Some client =>
         let key := redis_key jti in
         redis_call client (delete key);;
         mret true
     | None => mret false
     end)
    (λ _, mret false);
  if returned : bool then mret true
  else
    store ← get_memory_store;
    match store !! jti with
    | Some _ => put_memory_store (base.delete jti store);; mret true
    | None => mret false
    end.

(** *** [check_if_token_revoked] (token_blacklist.py:467-531)

    A JWT header or payload maps claim names to values; a value is a
    string or [None]. *)
Definition check_if_token_revoked
    (jwt_header jwt_payload : gmap string (option string)) : M World bool :=
  let jti := mjoin (jwt_payload !! "jti") in
  match jti with
  | None => mret false
  | Some jti => is_blacklisted jti
  end.

(** *** [revoke_token] (token_blacklist.py:534-570) *)
Definition revoke_token (jti : string) (expires_delta : option Z) : M World bool :=
  add jti expires_delta.

End blacklist.
Arguments World R : clear implicits.

(** *** Which backend a call uses *)

(** What the write of [add jti expires_delta] to the external store does
    from [w]: [None] when there is no client, else the outcome of [setex]. *)
Definition external_write {R} `{RedisClient R}
    (w : World R) (jti : string) (expires_delta : option Z) : option (outcome unit) :=
  client ← redis w;
  Some (setex (redis_key jti) (default (timedelta_hours 24) expires_delta)
              (clock w (S (clock_reads w))) client).1.

(** What the existence check of [is_blacklisted jti] does from [w]. *)
Definition external_read {R} `{RedisClient R}
    (w : World R) (jti : string) : option (outcome Z) :=
  client ← redis w;
  Some (exists_ (redis_key jti) client).1.

(** The external store is absent, or the command raised. *)
Definition unavailable {A} (o : option (outcome A)) : Prop :=
  o = None ∨ ∃ e, o = Some (Raised e).

(** The value of the latest [datetime.utcnow()] call. *)
Definition last_read {R} (w : World R) : Z := clock w (pred (clock_reads w)).

(** No entry of the map has expired at time [now]. *)
Definition no_expired (now : Z) (store : gmap string Z) : Prop :=
  ∀ jti expires_at, store !! jti = Some expires_at → expires_at > now.

(** Time passes: the clock is read [n] more times elsewhere. *)
Definition later {R} (n : nat) (w : World R) : World R :=
  {| memory_store := memory_store w; redis := redis w; clock := clock w;
     clock_reads := n + clock_reads w; log := log w |}.

(** *** Sample stores *)

(** A Redis stand-in: reachable or not, with its keys (ttl and value). *)
Record FakeRedis := mkFakeRedis {
  up : bool;
  keys : gmap string (Z * Z)
}.

#[export] Instance fake_redis_client : RedisClient FakeRedis := {|
  setex key ttl v := λ r,
    if up r then (Returned tt, {| up := true; keys := <[key := (ttl, v)]> (keys r) |})
    else (Raised "ConnectionError", r);
  exists_ key := λ r,
    if up r then (Returned (match keys r !! key with Some _ => 1 | None => 0 end), r)
    else (Raised "ConnectionError", r);
  delete key := λ r,
    if up r then (Returned (match keys r !! key with Some _ => 1 | None => 0 end),
                  {| up := true; keys := base.delete key (keys r) |})
    else (Raised "ConnectionError", r)
|}.

(** A clock that stands still at 1000, and one that advances by one second
    for each read. *)
Definition frozen_clock : nat → Z := λ _, 1000.
Definition ticking_clock : nat → Z := λ n, 1000 + 1000000 * Z.of_nat n.

(** No Redis, empty map. *)
Definition memory_only (c : nat → Z) : World FakeRedis :=
  {| memory_store := ∅; redis := None; clock := c; clock_reads := 0; log := [] |}.

(** No Redis, and a map holding an entry that expired at time 5. *)
Definition memory_only_stale : World FakeRedis :=
  {| memory_store := {[ "old-jti" := 5 ]}; redis := None;
     clock := frozen_clock; clock_reads := 0; log := [] |}.

(** Redis present but unreachable, empty map. *)
Definition redis_down (c : nat → Z) : World FakeRedis :=
  {| memory_store := ∅; redis := Some (mkFakeRedis false ∅); clock := c;
     clock_reads := 0; log := [] |}.

(** Redis reachable again, while the map still holds an entry that expired
    at time 5 (written when Redis was not reachable). *)
Definition redis_up_stale : World FakeRedis :=
  {| memory_store := {[ "old-jti" := 5 ]}; redis := Some (mkFakeRedis true ∅);
     clock := frozen_clock; clock_reads := 0; log := [] |}.

End token_blacklist.

(** ** Part II-b.  [core/token_blacklist.py], continued *)

Module token_blacklist_ext.
Import token_blacklist.

(** The [keys(pattern)] command of the client. *)
Class RedisKeys (R : Type) := {
  keys_matching : string → M R (list string)
}.

(** *** [TokenBlacklist.get_blacklist_count] (token_blacklist.py:421-456) *)
Definition get_blacklist_count {R} `{RedisClient R} `{RedisKeys R}
  : M (World R) nat :=
  returned ← try_except
    (redis_client ← _get_redis_client;
     match redis_client with
     | Some client =>
         keys ← redis_call client (keys_matching "token_blacklist:*");
         mret (Some (length keys))
     | None => mret None
     end)
    (λ _, mret None);
  match returned with
  | Some n => mret n
  | None =>
      _cleanup_expired;;
      store ← get_memory_store;
      mret (size store)
  end.

(** What the [keys] command of [get_blacklist_count] does from [w]. *)
Definition external_keys {R} `{RedisKeys R} (w : World R)
  : option (outcome (list string)) :=
  client ← redis w;
  Some (keys_matching "token_blacklist:*" client).1.

#[export] Instance fake_redis_keys : RedisKeys FakeRedis := {|
  keys_matching pattern := λ r,
    if up r
    then (Returned (filter (λ k, String.prefix "token_blacklist:" k = true)
                           (map_to_list (token_blacklist.keys r)).*1), r)
    else (Raised "ConnectionError", r)
|}.

(** What the [delete] command of [remove jti] does from [w]. *)
Definition external_delete {R} `{RedisClient R}
    (w : World R) (jti : string) : option (outcome Z) :=
  client ← redis w;
  Some (delete (redis_key jti) client).1.

(** No Redis; one entry expired at time 5, one expiring at time 2000. *)
Definition memory_two_entries : World FakeRedis :=
  {| memory_store := {[ "old-jti" := 5; "live-jti" := 2000 ]}; redis := None;
     clock := frozen_clock; clock_reads := 0; log := [] |}.

(** Redis reachable and empty, while the map holds an entry that expires at
    time 2000 (written when Redis was not reachable). *)
Definition redis_up_memory_live : World FakeRedis :=
  {| memory_store := {[ "live-jti" := 2000 ]}; redis := Some (mkFakeRedis true ∅);
     clock := frozen_clock; clock_reads := 0; log := [] |}.

End token_blacklist_ext.

(** ** Part II-c.  [api/tasks.py]: the route module's own task check *)

Module api_tasks.
Import permissions.

(** *** The session of the request

    The routes run inside one SQLAlchemy session.  [Query.get] looks the
    primary key up in the identity map of the session first and issues a
    SELECT only when the instance is not there; a SELECT puts the instances
    it loads into the map, an instance the map already holds being kept.
    The map is modelled for [Task] and [Project], the two classes fetched
    by primary key here.

    The load of the task joins the project table
    ([joinedload(Task.project)]): it is a query of its own, which raises by
    an oracle of its own, whatever the plain queries of
    [services/permissions.py] do. *)

Record Request := mkRequest {
  world : World;                       (* store, events and log *)
  session_tasks : gmap Z Task;         (* identity map, Task *)
  session_projects : gmap Z Project;   (* identity map, Project *)
  joined_fault : Z → option string;    (* which joined loads of a task raise *)
  joined_loads : list Z                (* joined loads issued, oldest first *)
}.

Definition with_world (w : World) (r : Request) : Request :=
  {| world := w; session_tasks := session_tasks r;
     session_projects := session_projects r;
     joined_fault := joined_fault r; joined_loads := joined_loads r |}.

(** A computation of [services/permissions.py] run inside the request. *)
Definition in_session {A} (m : M World A) : M Request A :=
  λ r, let '(o, w) := m (world r) in (o, with_world w r).

Definition remember_task (task : Task) (r : Request) : Request :=
  {| world := world r;
     session_tasks := match session_tasks r !! t_id task with
                      | Some _ => session_tasks r
                      | None => <[t_id task := task]> (session_tasks r)
                      end;
     session_projects := session_projects r;
     joined_fault := joined_fault r; joined_loads := joined_loads r |}.

Definition remember_project (project : option Project) (r : Request) : Request :=
  match project with
  | None => r
  | Some project =>
      {| world := world r; session_tasks := session_tasks r;
         session_projects := match session_projects r !! p_id project with
                             | Some _ => session_projects r
                             | None => <[p_id project := project]>
                                         (session_projects r)
                             end;
         joined_fault := joined_fault r; joined_loads := joined_loads r |}
  end.

Definition joined_load_issued (task_id : Z) (r : Request) : Request :=
  {| world := world r; session_tasks := session_tasks r;
     session_projects := session_projects r;
     joined_fault := joined_fault r;
     joined_loads := joined_loads r ++ [task_id] |}.

(** [Task.query.options(joinedload(Task.project)).get(task_id)]
    (tasks.py:108-110): one SELECT over task LEFT OUTER JOIN project, which
    loads the task and, when its row exists, the project of the task. *)
Definition Task_query_options_joinedload_project_get (task_id : Z)
  : M Request (option Task) :=
  λ r, match session_tasks r !! task_id with
       | Some task => (Returned (Some task), r)
       | None =>
           let r' := joined_load_issued task_id r in
           match joined_fault r task_id with
           | Some e => (Raised e, r')
           | None =>
               match find (λ t, t_id t =? task_id) (tasks (db (world r))) with
               | None => (Returned None, r')
               | Some task =>
                   (Returned (Some task),
                    remember_project
                      (find (λ p, p_id p =? t_project_id task)
                            (projects (db (world r))))
                      (remember_task task r'))
               end
           end
       end.

(** [Project.query.options(joinedload(Project.owner)).get(project_id)]
    (permissions.py:184-186) inside the request: a project the session
    holds is returned without a SELECT. *)
Definition Project_query_options_joinedload_owner_get (project_id : Z)
  : M Request (option Project) :=
  λ r, match session_projects r !! project_id with
       | Some project => (Returned (Some project), r)
       | None =>
           match Project_query_get project_id (world r) with
           | (Returned project, w) =>
               (Returned project, remember_project project (with_world w r))
           | (Raised e, w) => (Raised e, with_world w r)
           end
       end.

(** [services.permissions.check_project_access] as it runs inside the
    request: the body of permissions.py:174-234, its lookup of the project
    going through the session. *)
Definition check_project_access (project_id user_id : Z)
  : M Request (bool * option Project * option string) :=
  try_except
    (project ← Project_query_options_joinedload_owner_get project_id;
     match project with
     | None => mret (false, None, None)
     | Some project =>
         if p_owner_id project =? user_id
         then mret (true, Some project, Some "owner")
         else
           member ← in_session (ProjectMember_query_filter_by_first
                                  project_id user_id None);
           match member with
           | Some member => mret (true, Some project, Some (m_role member))
           | None => mret (false, None, None)
           end
     end)
    (λ e, in_session (logger_error ("Error checking project access: " +:+ e));;
          mret (false, None, None)).

(** *** [check_task_access] (api/tasks.py:97-122) *)
Definition check_task_access (task_id user_id : Z)
  : M Request (bool * option Task * option string) :=
  try_except
    (task ← Task_query_options_joinedload_project_get task_id;
     match task with
     | None => mret (false, None, None)
     | Some task =>
         '(has_access, project, role) ←
           check_project_access (t_project_id task) user_id;
         mret (has_access, Some task, role)
     end)
    (λ e, in_session (logger_error ("Error checking task access: " +:+ e));;
          mret (false, None, None)).

(** The instances the session holds are the rows of the store. *)
Definition session_consistent (r : Request) : Prop :=
  (∀ task_id T, session_tasks r !! task_id = Some T →
                find (λ t, t_id t =? task_id) (tasks (db (world r))) = Some T)
  ∧ (∀ project_id P, session_projects r !! project_id = Some P →
                     find (λ p, p_id p =? project_id) (projects (db (world r)))
                     = Some P).

(** A request that has loaded nothing yet. *)
Definition new_request (d : Datastore) (joined : Z → option string) : Request :=
  {| world := fresh d; session_tasks := ∅; session_projects := ∅;
     joined_fault := joined; joined_loads := [] |}.

End api_tasks.

(** ** Part II-d.  The service layer: [services/base.py],
    [services/project_service.py], [services/task_service.py]

    The service methods have no [try]: an exception raised by a query or by
    the commit reaches the caller. *)

Module services.
Import permissions.

(** *** [ServiceErrorCode], [ServiceError], [ServiceResult] (base.py:25-118) *)

Inductive ServiceErrorCode :=
| VALIDATION_ERROR | NOT_FOUND | UNAUTHORIZED | FORBIDDEN | CONFLICT | INTERNAL_ERROR.

Record ServiceError := mkServiceError {
  code : ServiceErrorCode;
  message : string;
  details : option (gmap string string)
}.

Record ServiceResult (T : Type) := mkServiceResult {
  success : bool;
  data : option T;
  error : option ServiceError
}.
Arguments mkServiceResult {T} _ _ _.
Arguments success {T} _.
Arguments data {T} _.
Arguments error {T} _.

Definition ok {T} (d : T) : ServiceResult T :=
  {| success := true; data := Some d; error := None |}.

Definition fail {T} (c : ServiceErrorCode) (msg : string) : ServiceResult T :=
  {| success := false; data := None;
     error := Some {| code := c; message := msg; details := None |} |}.

Definition not_found {T} (resource : string) : ServiceResult T :=
  fail NOT_FOUND (resource +:+ " not found").

Definition forbidden {T} (msg : string) : ServiceResult T := fail FORBIDDEN msg.

Definition conflict {T} (msg : string) : ServiceResult T := fail CONFLICT msg.

(** *** [PermissionMixin] (base.py:245-283) *)

Definition check_member (project_id user_id : Z) : M World bool :=
  member ← ProjectMember_query_filter_by_first project_id user_id None;
  mret (bool_decide (member ≠ None)).

Definition check_admin (project_id user_id : Z) : M World bool :=
  project ← Project_query_get project_id;
  match project with
  | None => mret false
  | Some project =>
      if p_owner_id project =? user_id then mret true
      else
        member ← ProjectMember_query_filter_by_first
                   project_id user_id (Some "admin");
        mret (bool_decide (member ≠ None))
  end.

(** *** [ProjectPermissionService] (project_service.py:94-142) *)

Definition check_access (project_id user_id : Z) : M World (bool * option string) :=
  project ← Project_query_get project_id;
  match project with
  | None => mret (false, None)
  | Some project =>
      if p_owner_id project =? user_id then mret (true, Some "owner")
      else
        member ← ProjectMember_query_filter_by_first project_id user_id None;
        match member with
        | Some member => mret (true, Some (m_role member))
        | None => mret (false, None)
        end
  end.

(** [has_access and role in ('owner', 'admin')] *)
Definition check_admin_access (project_id user_id : Z) : M World bool :=
  '(has_access, role) ← check_access project_id user_id;
  mret (has_access && bool_decide (role ∈ [Some "owner"; Some "admin"])).

Definition can_modify (project_id user_id : Z) : M World bool :=
  check_admin_access project_id user_id.

(** [project and project.owner_id == user_id]: [None] when there is no such
    project, else the comparison. *)
Definition can_delete (project_id user_id : Z) : M World (option bool) :=
  project ← Project_query_get project_id;
  mret match project with
       | None => None
       | Some project => Some (p_owner_id project =? user_id)
       end.

(** Python truth value of what [can_delete] returns. *)
Definition truthy (v : option bool) : bool := default false v.

(** *** The world of the writing methods

    On top of the tables: the [User] table (with its own fault), the
    changes [db.session] holds until the commit, whether the commit
    raises, the task titles (a column the row type above leaves out), and
    the [logger.info] lines. *)

Record User := mkUser {
  u_id : Z;
  u_username : string;
  u_email : string;
  u_avatar_url : option string
}.

Inductive session_op :=
| SessionAddMember (project_id user_id : Z) (role : string)
    (* db.session.add(ProjectMember(project_id=, user_id=, role=)) *)
| SessionDeleteMember (member : ProjectMember)
| SessionDeleteTask (task : Task)
| SessionDeleteProject (project : Project).

Record SWorld := mkSWorld {
  app : World;
  users : list User;
  user_fault : option string;
  session : list session_op;
  commit_fault : option string;
  title_of : Z → string;
  info_log : list string
}.

Definition with_app (w : World) (s : SWorld) : SWorld :=
  {| app := w; users := users s; user_fault := user_fault s;
     session := session s; commit_fault := commit_fault s;
     title_of := title_of s; info_log := info_log s |}.

(** A query or check of the reading layer, run inside a writing method. *)
Definition lift {A} (m : M World A) : M SWorld A :=
  λ s, let '(o, w') := m (app s) in (o, with_app w' s).

(** [User.query.filter_by(email=email).first()] *)
Definition User_query_filter_by_email_first (email : string) : M SWorld (option User) :=
  λ s, match user_fault s with
       | Some e => (Raised e, s)
       | None => (Returned (find (λ u, bool_decide (u_email u = email)) (users s)), s)
       end.

Definition session_do (op : session_op) : M SWorld unit :=
  λ s, (Returned tt,
        {| app := app s; users := users s; user_fault := user_fault s;
           session := session s ++ [op]; commit_fault := commit_fault s;
           title_of := title_of s; info_log := info_log s |}).

(** The primary key an inserted membership row gets. *)
Definition next_member_id (d : Datastore) : Z :=
  1 + foldr Z.max 0 (m_id <$> project_members d).

(** What one pending change does to the tables at the commit.  Deletions
    go by primary key; deleting a project takes its tasks and membership
    rows along ([cascade='all,delete-orphan'] on [Project.tasks] and
    [Project.members]).  The database's own constraint checks at the commit
    are not modelled: [commit_fault] stands for a commit that raises. *)
Definition apply_op (d : Datastore) (op : session_op) : Datastore :=
  match op with
  | SessionAddMember project_id user_id role =>
      {| projects := projects d;
         project_members :=
           project_members d
           ++ [mkProjectMember (next_member_id d) user_id project_id role];
         tasks := tasks d; fault := fault d |}
  | SessionDeleteMember member =>
      {| projects := projects d;
         project_members :=
           filter (λ r, m_id r ≠ m_id member) (project_members d);
         tasks := tasks d; fault := fault d |}
  | SessionDeleteTask task =>
      {| projects := projects d;
         project_members := project_members d;
         tasks := filter (λ t, t_id t ≠ t_id task) (tasks d);
         fault := fault d |}
  | SessionDeleteProject project =>
      {| projects := filter (λ p, p_id p ≠ p_id project) (projects d);
         project_members :=
           filter (λ r, m_project_id r ≠ p_id project) (project_members d);
         tasks := filter (λ t, t_project_id t ≠ p_id project) (tasks d);
         fault := fault d |}
  end.

(** [db.session.commit()] *)
Definition commit : M SWorld unit :=
  λ s, match commit_fault s with
       | Some e => (Raised e, s)
       | None =>
           (Returned tt,
            {| app := {| db := foldl apply_op (db (app s)) (session s);
                         events := events (app s) |};
               users := users s; user_fault := user_fault s;
               session := []; commit_fault := commit_fault s;
               title_of := title_of s; info_log := info_log s |})
       end.

(** [self._log_info(msg)] *)
Definition _log_info (msg : string) : M SWorld unit :=
  λ s, (Returned tt,
        {| app := app s; users := users s; user_fault := user_fault s;
           session := session s; commit_fault := commit_fault s;
           title_of := title_of s; info_log := info_log s ++ [msg] |}).

(** Attribute access on [None]. *)
Definition raise_attribute_error {A} (attr : string) : M SWorld A :=
  λ s, (Raised ("'NoneType' object has no attribute '" +:+ attr +:+ "'"), s).

(** *** [ProjectService.delete_project] (project_service.py:292-310) *)
Definition delete_project (project_id user_id : Z) : M SWorld (ServiceResult bool) :=
  allowed ← lift (can_delete project_id user_id);
  if negb (truthy allowed)
  then mret (forbidden "Only the project owner can delete the project")
  else
    project ← lift (Project_query_get project_id);
    match project with
    | None => mret (not_found "Project")
    | Some project =>
        let project_name := p_name project in
        session_do (SessionDeleteProject project);;
        commit;;
        _log_info ("Project deleted: " +:+ project_name
                   +:+ " by user " +:+ pretty user_id);;
        mret (ok true)
    end.

(** *** [ProjectMemberDTO] (project_service.py:69-90) *)
Record ProjectMemberDTO := mkProjectMemberDTO {
  dto_user_id : Z;
  dto_username : string;
  dto_email : string;
  dto_role : string;
  dto_is_owner : bool;
  dto_avatar_url : option string
}.

(** *** [ProjectService.add_member] (project_service.py:355-399) *)
Definition add_member (project_id user_id : Z) (member_email : string)
    (role : option string) : M SWorld (ServiceResult ProjectMemberDTO) :=
  let role := default "member" role in
  is_admin ← lift (check_admin_access project_id user_id);
  if negb is_admin then mret (forbidden "Only admins can add members")
  else
    new_member ← User_query_filter_by_email_first member_email;
    match new_member with
    | None => mret (not_found "User")
    | Some new_member =>
        existing ← lift (ProjectMember_query_filter_by_first
                           project_id (u_id new_member) None);
        match existing with
        | Some _ => mret (conflict "User is already a member of this project")
        | None =>
            project ← lift (Project_query_get project_id);
            match project with
            | None => raise_attribute_error "owner_id"
            | Some project =>
                if p_owner_id project =? u_id new_member
                then mret (conflict "Owner is already part of the project")
                else
                  session_do (SessionAddMember project_id (u_id new_member) role);;
                  commit;;
                  mret (ok {| dto_user_id := u_id new_member;
                              dto_username := u_username new_member;
                              dto_email := u_email new_member;
                              dto_role := role;
                              dto_is_owner := false;
                              dto_avatar_url := u_avatar_url new_member |})
            end
        end
    end.

(** *** [ProjectService.remove_member] (project_service.py:401-430) *)
Definition remove_member (project_id user_id member_id : Z)
  : M SWorld (ServiceResult bool) :=
  is_admin ← lift (check_admin_access project_id user_id);
  if negb is_admin then mret (forbidden "Only admins can remove members")
  else
    project ← lift (Project_query_get project_id);
    match project with
    | None => raise_attribute_error "owner_id"
    | Some project =>
        if p_owner_id project =? member_id
        then mret (fail VALIDATION_ERROR "Cannot remove the project owner")
        else
          member ← lift (ProjectMember_query_filter_by_first
                           project_id member_id None);
          match member with
          | None => mret (not_found "Member")
          | Some member =>
              session_do (SessionDeleteMember member);;
              commit;;
              mret (ok true)
          end
    end.

(** *** [TaskService.delete_task] (task_service.py:352-371) *)
Definition delete_task (task_id user_id : Z) : M SWorld (ServiceResult bool) :=
  task ← lift (Task_query_get task_id);
  match task with
  | None => mret (not_found "Task")
  | Some task =>
      '(has_access, _) ← lift (check_access (t_project_id task) user_id);
      if negb has_access
      then mret (forbidden "You are not a member of this project")
      else
        title ← (λ s, (Returned (title_of s (t_id task)), s));
        session_do (SessionDeleteTask task);;
        commit;;
        _log_info ("Task deleted: " +:+ title);;
        mret (ok true)
  end.

(** *** Conditions on the tables *)

(** Membership roles are "admin" or "member" (the two the schema names). *)
Definition roles_valid (d : Datastore) : Prop :=
  ∀ r, r ∈ project_members d → m_role r = "admin" ∨ m_role r = "member".

(** No project's owner has a membership row in it. *)
Definition owner_not_member (d : Datastore) : Prop :=
  ∀ P r, P ∈ projects d → r ∈ project_members d →
         m_project_id r = p_id P → m_user_id r ≠ p_owner_id P.

(** Queries and commit work, nothing is pending. *)
Definition sound (s : SWorld) : Prop :=
  healthy (db (app s)) ∧ user_fault s = None ∧ commit_fault s = None
  ∧ session s = [].

(** *** Sample worlds *)

Definition demo_users : list User :=
  [mkUser 1 "ann" "ann@example.org" None; mkUser 2 "bob" "bob@example.org" None;
   mkUser 3 "cyd" "cyd@example.org" None; mkUser 4 "dan" "dan@example.org" None;
   mkUser 5 "eve" "eve@example.org" (Some "/avatars/eve.png")].

Definition demo_world : SWorld :=
  {| app := fresh demo_db; users := demo_users; user_fault := None;
     session := []; commit_fault := None;
     title_of := λ _, "Write the report"; info_log := [] |}.

End services.

(** ** Part II-e.  More sample stores *)

Module more_samples.
Import permissions.

(** Project 7 owned by user 1, no membership rows; task 42 of project 7
    created by user 8 and assigned to user 9, neither of whom belongs to the
    project.  Only the task lookup works. *)
Definition outsider_task : Task := mkTask 42 7 (Some 9) 8.

Definition outsider_db : Datastore :=
  {| projects := [project7];
     project_members := [];
     tasks := [outsider_task];
     fault := λ q, match q with
                   | TaskGet _ => None
                   | _ => Some "OperationalError"
                   end |}.

(** Project 7 owned by user 1; user 6 has a membership row whose role is the
    string "owner". *)
Definition owner_role_db : Datastore :=
  {| projects := [project7];
     project_members := [mkProjectMember 1 6 7 "owner"];
     tasks := [task42];
     fault := no_fault |}.

(** A request on [outsider_db] whose joined load of a task works: the
    project table answers inside the join, not on its own. *)
Definition outsider_request : api_tasks.Request :=
  api_tasks.new_request outsider_db (λ _, None).

(** A request on [demo_db], no query raising. *)
Definition demo_request : api_tasks.Request :=
  api_tasks.new_request demo_db (λ _, None).

(** A request on [demo_db] whose joined load of a task raises. *)
Definition join_down_request : api_tasks.Request :=
  api_tasks.new_request demo_db (λ _, Some "OperationalError").

End more_samples.

(** ** Part III.  Properties of [services/permissions.py] *)

Section permissions_facts.
Import permissions.

(** *** Table lookups *)

Lemma find_by_key_None {A} (key : A → Z) (k : Z) (l : list A) :
  find (λ x, key x =? k) l = None ↔ ∀ x, x ∈ l → key x ≠ k.
Proof.
  induction l as [|a l IH]; simpl.
  - split; [intros _ x Hx; inversion Hx | done].
  - destruct (Z.eqb_spec (key a) k) as [Heq|Hne].
    + split; [done|]. intros Hall. exfalso. apply (Hall a); [left | done].
    + rewrite IH. split.
      * intros Hall x Hx. apply elem_of_cons in Hx as [->|Hx]; auto.
      * intros Hall x Hx. apply Hall. by right.
Qed.

Lemma find_by_key_unique {A} (key : A → Z) (k : Z) (l : list A) (x : A) :
  NoDup (key <$> l) → x ∈ l → key x = k → find (λ y, key y =? k) l = Some x.
Proof.
  induction l as [|a l IH]; simpl; intros Hnd Hx Hk.
  - inversion Hx.
  - apply NoDup_cons in Hnd as [Hnotin Hnd].
    destruct (Z.eqb_spec (key a) k) as [Heq|Hne].
    + apply elem_of_cons in Hx as [->|Hx]; [done|].
      exfalso. apply Hnotin. rewrite Heq, <- Hk. by apply list_elem_of_fmap_2.
    + apply elem_of_cons in Hx as [->|Hx]; [done|]. by apply IH.
Qed.

Lemma find_head_filter {A} (P : A → Prop) `{∀ x, Decision (P x)}
    (f : A → bool) (l : list A) :
  (∀ x, f x = bool_decide (P x)) → find f l = head (filter P l).
Proof.
  intros Hf. induction l as [|a l IH]; [done|].
  simpl. rewrite Hf. rewrite filter_cons.
  destruct (decide (P a)) as [HP|HP].
  - by rewrite bool_decide_eq_true_2.
  - by rewrite bool_decide_eq_false_2.
Qed.

Lemma find_some_elem {A} (f : A → bool) (l : list A) (x : A) :
  find f l = Some x → x ∈ l ∧ f x = true.
Proof.
  intros Hf. apply find_some in Hf as [Hin Hfx]. split; [|done].
  by apply list_elem_of_In.
Qed.

Lemma find_none_elem {A} (f : A → bool) (l : list A) :
  find f l = None ↔ ∀ x, x ∈ l → f x = false.
Proof.
  split.
  - intros Hf x Hx. apply (find_none f l Hf). by apply list_elem_of_In.
  - intros Hall. destruct (find f l) as [x|] eqn:Hf; [|done].
    apply find_some_elem in Hf as [Hx Hfx]. rewrite (Hall x Hx) in Hfx. done.
Qed.

(** *** Running the checks *)

Ltac run :=
  unfold fails_closed, query_raised, emitted, value, world_after,
    can_modify_task, check_task_access, check_project_member,
    check_project_access, check_project_admin, try_except,
    Project_query_get, ProjectMember_query_filter_by_first, Task_query_get,
    run_query, logger_error, record, mbind, M_bind, mret, M_ret, deny3 in *;
  simpl in *.

Ltac cases := repeat (case_match; simpl in *; simplify_eq).

Lemma member_pred_true (pid uid : Z) (role : option string) (r : ProjectMember) :
  (m_project_id r =? pid) && (m_user_id r =? uid) && role_filter role r = true
  ↔ m_project_id r = pid ∧ m_user_id r = uid
    ∧ match role with Some x => m_role r = x | None => True end.
Proof.
  rewrite !andb_true_iff, !Z.eqb_eq. destruct role as [x|]; simpl.
  - rewrite bool_decide_eq_true. tauto.
  - tauto.
Qed.

Lemma find_member_unique (d : Datastore) (pid uid : Z) (r : ProjectMember) :
  unique_project_member d → member_row d pid uid r →
  find (λ m, (m_project_id m =? pid) && (m_user_id m =? uid) && role_filter None m)
       (project_members d) = Some r.
Proof.
  intros Huniq (Hin & Hp & Hu).
  destruct (find _ (project_members d)) as [r'|] eqn:Hf.
  - apply find_some_elem in Hf as [Hin' Hpred].
    apply member_pred_true in Hpred as (Hp' & Hu' & _).
    f_equal. apply Huniq; congruence.
  - exfalso. rewrite find_none_elem in Hf. specialize (Hf r Hin).
    assert (Ht : (m_project_id r =? pid) && (m_user_id r =? uid)
                 && role_filter None r = true)
      by (apply member_pred_true; done).
    congruence.
Qed.

Lemma find_member_absent (d : Datastore) (pid uid : Z) (role : option string) :
  (∀ r, ¬ member_row d pid uid r) →
  find (λ m, (m_project_id m =? pid) && (m_user_id m =? uid) && role_filter role m)
       (project_members d) = None.
Proof.
  intros Hno. apply find_none_elem. intros r Hin.
  apply not_true_is_false. intros Hpred.
  apply member_pred_true in Hpred as (Hp & Hu & _).
  by apply (Hno r).
Qed.

(** On a healthy store the value of [check_project_access] is read off the
    two lookups. *)
Lemma check_project_access_healthy (w : World) (pid uid : Z) :
  healthy (db w) →
  value (check_project_access pid uid) w =
  Returned
    match find (λ p, p_id p =? pid) (projects (db w)) with
    | None => (false, None, None)
    | Some P =>
        if p_owner_id P =? uid then (true, Some P, Some "owner")
        else match find (λ m, (m_project_id m =? pid) && (m_user_id m =? uid)
                              && role_filter None m) (project_members (db w)) with
             | Some r => (true, Some P, Some (m_role r))
             | None => (false, None, None)
             end
    end.
Proof.
  intros Hh. run. rewrite !Hh. simpl.
  destruct (find _ (projects (db w))) as [P|]; simpl; [|done].
  destruct (p_owner_id P =? uid); simpl; [done|].
  rewrite Hh. simpl. by destruct (find _ (project_members (db w))).
Qed.

Lemma check_project_admin_healthy (w : World) (pid uid : Z) :
  healthy (db w) →
  value (check_project_admin pid uid) w =
  Returned
    match find (λ p, p_id p =? pid) (projects (db w)) with
    | None => false
    | Some P =>
        (p_owner_id P =? uid)
        || bool_decide (find (λ m, (m_project_id m =? pid) && (m_user_id m =? uid)
                                   && role_filter (Some "admin") m)
                             (project_members (db w)) ≠ None)
    end.
Proof.
  intros Hh. run. rewrite !Hh. simpl.
  destruct (find _ (projects (db w))) as [P|]; simpl; [|done].
  destruct (p_owner_id P =? uid); simpl; [done|].
  by rewrite Hh.
Qed.

(** The value of a check depends on the store only, not on the events
    recorded so far. *)
Lemma check_project_admin_value_db (w w' : World) (pid uid : Z) :
  db w = db w' →
  value (check_project_admin pid uid) w = value (check_project_admin pid uid) w'.
Proof. intros Hdb. run. rewrite Hdb. cases; done. Qed.

Lemma check_project_access_value_db (w w' : World) (pid uid : Z) :
  db w = db w' →
  value (check_project_access pid uid) w = value (check_project_access pid uid) w'.
Proof. intros Hdb. run. rewrite Hdb. cases; done. Qed.

(** *** The sample stores satisfy the schema's constraints *)

Ltac split_elems :=
  repeat match goal with
         | H : _ ∈ _ :: _ |- _ => apply elem_of_cons in H as [->|H]
         | H : _ ∈ [] |- _ => by apply elem_of_nil in H
         end.

Lemma demo_db_healthy : healthy demo_db.
Proof. intros q. reflexivity. Qed.

Lemma demo_db_integrity : integrity demo_db.
Proof.
  repeat split.
  - apply NoDup_singleton.
  - apply NoDup_singleton.
  - intros r r' Hr Hr' Hp Hu. simpl in *. split_elems; done.
Qed.

Lemma owner_row_db_integrity : integrity owner_row_db.
Proof.
  repeat split.
  - apply NoDup_singleton.
  - apply NoDup_singleton.
  - intros r r' Hr Hr' Hp Hu. simpl in *. split_elems; done.
Qed.

(** *** C1 *)

(** C1. On a store whose queries do not raise, [check_project_access]
    returns what the four-branch reference definition
    [resolve_project_access] gives.  Spelled out over the tables (with the
    primary keys and the unique_project_member constraint of the schema):
    no project with that id gives (False, None, None); the owner gets
    (True, project, "owner") whatever the membership table holds, so an
    owner who also has a membership row is still "owner"; a non-owner with
    a membership row gets (True, project, that row's role); a non-owner
    without one gets (False, None, None). *)
Theorem check_project_access_four_branches (w : World) (project_id user_id : Z) :
  healthy (db w) →
  value (check_project_access project_id user_id) w
    = Returned (resolve_project_access (db w) project_id user_id)
  ∧ (integrity (db w) →
       ((∀ P, P ∈ projects (db w) → p_id P ≠ project_id) →
          value (check_project_access project_id user_id) w
            = Returned (false, None, None))
     ∧ (∀ P, P ∈ projects (db w) → p_id P = project_id →
          (p_owner_id P = user_id →
             value (check_project_access project_id user_id) w
               = Returned (true, Some P, Some "owner"))
        ∧ (p_owner_id P ≠ user_id →
             ∀ r, member_row (db w) project_id user_id r →
                  value (check_project_access project_id user_id) w
                    = Returned (true, Some P, Some (m_role r)))
        ∧ (p_owner_id P ≠ user_id →
             (∀ r, ¬ member_row (db w) project_id user_id r) →
             value (check_project_access project_id user_id) w
               = Returned (false, None, None)))).
Proof.
  intros Hh. rewrite (check_project_access_healthy _ _ _ Hh). split.
  - unfold resolve_project_access, deny3.
    rewrite <- (find_head_filter (λ P, p_id P = project_id)
                  (λ p, p_id p =? project_id)).
    2: { intros x. destruct (Z.eqb_spec (p_id x) project_id).
         - by rewrite bool_decide_eq_true_2.
         - by rewrite bool_decide_eq_false_2. }
    destruct (find _ (projects (db w))) as [P|]; [|done].
    destruct (Z.eqb_spec (p_owner_id P) user_id) as [Ho|Ho].
    + by rewrite decide_True.
    + rewrite decide_False by done.
      rewrite <- (find_head_filter
                    (λ r, m_project_id r = project_id ∧ m_user_id r = user_id)
                    (λ m, (m_project_id m =? project_id)
                          && (m_user_id m =? user_id) && role_filter None m)).
      { by destruct (find _ (project_members (db w))). }
      intros x. simpl. rewrite andb_true_r.
      destruct (Z.eqb_spec (m_project_id x) project_id),
               (Z.eqb_spec (m_user_id x) user_id); simpl.
      * by rewrite bool_decide_eq_true_2.
      * rewrite bool_decide_eq_false_2; [done | tauto].
      * rewrite bool_decide_eq_false_2; [done | tauto].
      * rewrite bool_decide_eq_false_2; [done | tauto].
  - intros (Hpk & _ & Huniq). split.
    + intros Hno. apply find_by_key_None in Hno. by rewrite Hno.
    + intros P HP Hid.
      rewrite (find_by_key_unique p_id project_id _ P Hpk HP Hid).
      split; [|split].
      * intros Ho. apply Z.eqb_eq in Ho. by rewrite Ho.
      * intros Ho r Hr. apply Z.eqb_neq in Ho. rewrite Ho.
        by rewrite (find_member_unique _ _ _ r Huniq Hr).
      * intros Ho Hno. apply Z.eqb_neq in Ho. rewrite Ho.
        by rewrite (find_member_absent _ _ _ None Hno).
Qed.

(** The owner of project 7 has a membership row with role "member" in
    [owner_row_db]; the role returned is "owner". *)
Lemma check_project_access_four_branches_witness :
  healthy (db (fresh owner_row_db))
  ∧ integrity (db (fresh owner_row_db))
  ∧ member_row owner_row_db 7 1 (mkProjectMember 9 1 7 "member")
  ∧ value (check_project_access 7 1) (fresh owner_row_db)
      = Returned (true, Some project7, Some "owner").
Proof.
  assert (Hh : healthy (db (fresh owner_row_db))) by (intros q; reflexivity).
  split; [exact Hh|]. split; [exact owner_row_db_integrity|].
  split; [repeat split; simpl; by left|].
  destruct (check_project_access_four_branches (fresh owner_row_db) 7 1 Hh)
    as [_ Hbranches].
  destruct (Hbranches owner_row_db_integrity) as [_ Hfound].
  apply (Hfound project7); [simpl; by left | reflexivity | reflexivity].
Defined.

(** *** C2 *)

Lemma find_admin_row_iff (d : Datastore) (pid uid : Z) :
  find (λ m, (m_project_id m =? pid) && (m_user_id m =? uid)
             && role_filter (Some "admin") m) (project_members d) ≠ None
  ↔ ∃ r, member_row d pid uid r ∧ m_role r = "admin".
Proof.
  split.
  - destruct (find _ (project_members d)) as [r|] eqn:Hf; [|done].
    intros _. apply find_some_elem in Hf as [Hin Hpred].
    apply member_pred_true in Hpred as (Hp & Hu & Hr).
    exists r. by repeat split.
  - intros (r & (Hin & Hp & Hu) & Hr) Hf.
    rewrite find_none_elem in Hf. specialize (Hf r Hin).
    assert (Ht : (m_project_id r =? pid) && (m_user_id r =? uid)
                 && role_filter (Some "admin") r = true)
      by (apply member_pred_true; done).
    congruence.
Qed.

(** C2. On a store whose queries do not raise (and that satisfies the
    schema's constraints), [check_project_admin] returns True exactly when
    the project exists and the user is its owner or has a membership row
    with role "admin"; it returns False for a user whose membership row has
    role "member", for a user without a membership row, and when no project
    has that id. *)
Theorem check_project_admin_iff (w : World) (project_id user_id : Z) :
  healthy (db w) → integrity (db w) →
  (value (check_project_admin project_id user_id) w = Returned true
   ↔ ∃ P, P ∈ projects (db w) ∧ p_id P = project_id
          ∧ (p_owner_id P = user_id
             ∨ ∃ r, member_row (db w) project_id user_id r ∧ m_role r = "admin"))
  ∧ (value (check_project_admin project_id user_id) w = Returned true
     ∨ value (check_project_admin project_id user_id) w = Returned false)
  ∧ (∀ P r, P ∈ projects (db w) → p_id P = project_id → p_owner_id P ≠ user_id →
            member_row (db w) project_id user_id r → m_role r = "member" →
            value (check_project_admin project_id user_id) w = Returned false)
  ∧ (∀ P, P ∈ projects (db w) → p_id P = project_id → p_owner_id P ≠ user_id →
          (∀ r, ¬ member_row (db w) project_id user_id r) →
          value (check_project_admin project_id user_id) w = Returned false)
  ∧ ((∀ P, P ∈ projects (db w) → p_id P ≠ project_id) →
     value (check_project_admin project_id user_id) w = Returned false).
Proof.
  intros Hh (Hpk & _ & Huniq). rewrite (check_project_admin_healthy _ _ _ Hh).
  assert (Hiff :
    Returned
      match find (λ p, p_id p =? project_id) (projects (db w)) with
      | Some P =>
          (p_owner_id P =? user_id)
          || bool_decide
               (find (λ m, (m_project_id m =? project_id)
                           && (m_user_id m =? user_id)
                           && role_filter (Some "admin") m)
                     (project_members (db w)) ≠ None)
      | None => false
      end = Returned true
    ↔ ∃ P, P ∈ projects (db w) ∧ p_id P = project_id
           ∧ (p_owner_id P = user_id
              ∨ ∃ r, member_row (db w) project_id user_id r ∧ m_role r = "admin")).
  { split.
    - destruct (find _ (projects (db w))) as [P|] eqn:Hf; [|done].
      intros Hv. apply find_some_elem in Hf as [HP Hid]. apply Z.eqb_eq in Hid.
      exists P. split; [done|]. split; [done|].
      injection Hv as Hv. apply orb_true_iff in Hv as [Ho|Hr].
      + left. by apply Z.eqb_eq.
      + right. apply bool_decide_eq_true in Hr. by apply find_admin_row_iff.
    - intros (P & HP & Hid & Hor).
      rewrite (find_by_key_unique p_id project_id _ P Hpk HP Hid).
      f_equal. apply orb_true_iff. destruct Hor as [Ho|Hr].
      + left. by apply Z.eqb_eq.
      + right. apply bool_decide_eq_true. by apply find_admin_row_iff. }
  split; [exact Hiff|]. split; [|split; [|split]].
  - match goal with |- Returned ?b = _ ∨ _ => destruct b end; [by left | by right].
  - intros P r HP Hid Ho Hr Hrole.
    match goal with |- Returned ?b = _ => destruct b eqn:Hb end; [|done].
    exfalso. rewrite <- Hb in Hiff.
    destruct (proj1 Hiff eq_refl) as (P' & HP' & Hid' & [Ho'|(r' & Hr' & Hrole')]).
    + assert (P' = P) as ->; [|done].
      pose proof (find_by_key_unique p_id project_id _ P Hpk HP Hid) as E1.
      pose proof (find_by_key_unique p_id project_id _ P' Hpk HP' Hid') as E2.
      congruence.
    + assert (r' = r) as ->.
      { destruct Hr as (? & ? & ?), Hr' as (? & ? & ?). apply Huniq; congruence. }
      rewrite Hrole in Hrole'. discriminate.
  - intros P HP Hid Ho Hno.
    rewrite (find_by_key_unique p_id project_id _ P Hpk HP Hid).
    apply Z.eqb_neq in Ho. rewrite Ho.
    rewrite (find_member_absent _ _ _ (Some "admin") Hno), orb_false_l.
    by rewrite bool_decide_eq_false_2 by (intros Hx; by apply Hx).
  - intros Hno. apply find_by_key_None in Hno. by rewrite Hno.
Qed.

(** In [demo_db], user 3 is an admin of project 7 and user 2 a plain
    member. *)
Lemma check_project_admin_iff_witness :
  healthy (db (fresh demo_db)) ∧ integrity (db (fresh demo_db))
  ∧ value (check_project_admin 7 3) (fresh demo_db) = Returned true
  ∧ value (check_project_admin 7 2) (fresh demo_db) = Returned false.
Proof.
  split; [exact demo_db_healthy|]. split; [exact demo_db_integrity|]. split.
  - apply (check_project_admin_iff (fresh demo_db) 7 3
             demo_db_healthy demo_db_integrity).
    exists project7. split; [simpl; by left|]. split; [reflexivity|].
    right. exists (mkProjectMember 2 3 7 "admin").
    repeat split. simpl. right. by left.
  - destruct (check_project_admin_iff (fresh demo_db) 7 2
                demo_db_healthy demo_db_integrity) as (_ & _ & Hmember & _).
    apply (Hmember project7 (mkProjectMember 1 2 7 "member")).
    + simpl. by left.
    + reflexivity.
    + done.
    + repeat split. simpl. by left.
    + reflexivity.
Defined.

(** *** C3 *)

Lemma can_modify_task_healthy (w : World) (tid uid : Z) :
  fault (db w) (TaskGet tid) = None →
  value (can_modify_task tid uid) w =
  Returned
    match find (λ t, t_id t =? tid) (tasks (db w)) with
    | None => (false, None)
    | Some T =>
        if (t_created_by T =? uid) || bool_decide (t_assigned_to T = Some uid)
        then (true, Some T)
        else match value (check_project_admin (t_project_id T) uid) w with
             | Returned true => (true, Some T)
             | _ => (false, None)
             end
    end.
Proof. intros Hh. run. rewrite Hh. simpl. cases; done. Qed.

(** C3. On a store whose queries do not raise (and that satisfies the
    schema's constraints), [can_modify_task] returns (True, task) when the
    task exists and the user created it, or is its assignee, or
    [check_project_admin] holds for the task's project; in every other
    case, a missing task included, it returns (False, None). *)
Theorem can_modify_task_iff (w : World) (task_id user_id : Z) :
  healthy (db w) → integrity (db w) →
  (∀ T, T ∈ tasks (db w) → t_id T = task_id → may_modify w T user_id →
        value (can_modify_task task_id user_id) w = Returned (true, Some T))
  ∧ ((¬ ∃ T, T ∈ tasks (db w) ∧ t_id T = task_id ∧ may_modify w T user_id) →
     value (can_modify_task task_id user_id) w = Returned (false, None)).
Proof.
  intros Hh (_ & Htk & _).
  rewrite (can_modify_task_healthy _ _ _ (Hh _)). split.
  - intros T HT Hid Hmay.
    rewrite (find_by_key_unique t_id task_id _ T Htk HT Hid).
    destruct Hmay as [Hc|[Ha|Hadm]].
    + apply Z.eqb_eq in Hc. by rewrite Hc.
    + rewrite (bool_decide_eq_true_2 _ Ha), orb_true_r. done.
    + rewrite Hadm. by destruct (_ || _).
  - intros Hno.
    destruct (find _ (tasks (db w))) as [T|] eqn:Hf; [|done].
    apply find_some_elem in Hf as [HT Hid]. apply Z.eqb_eq in Hid.
    destruct (Z.eqb_spec (t_created_by T) user_id) as [Hc|Hc].
    { exfalso. apply Hno. exists T. repeat split; try done. by left. }
    destruct (decide (t_assigned_to T = Some user_id)) as [Ha|Ha].
    { exfalso. apply Hno. exists T. repeat split; try done. right. by left. }
    rewrite (bool_decide_eq_false_2 _ Ha). simpl.
    destruct (value (check_project_admin (t_project_id T) user_id) w)
      as [[|]|e] eqn:Hadm; try done.
    exfalso. apply Hno. exists T. repeat split; try done. right. by right.
Qed.

(** The scenario of the specification: task 42 of project 7, created by
    user 2 and unassigned; user 3 is an admin of the project, user 4 a plain
    member. *)
Lemma can_modify_task_iff_witness :
  healthy (db (fresh demo_db)) ∧ integrity (db (fresh demo_db))
  ∧ value (can_modify_task 42 3) (fresh demo_db) = Returned (true, Some task42)
  ∧ value (can_modify_task 42 2) (fresh demo_db) = Returned (true, Some task42)
  ∧ value (can_modify_task 42 4) (fresh demo_db) = Returned (false, None).
Proof.
  split; [exact demo_db_healthy|]. split; [exact demo_db_integrity|].
  split; [|split].
  - apply (proj1 (can_modify_task_iff (fresh demo_db) 42 3
                    demo_db_healthy demo_db_integrity) task42).
    + simpl. by left.
    + reflexivity.
    + right. right. reflexivity.
  - apply (proj1 (can_modify_task_iff (fresh demo_db) 42 2
                    demo_db_healthy demo_db_integrity) task42).
    + simpl. by left.
    + reflexivity.
    + left. reflexivity.
  - apply (proj2 (can_modify_task_iff (fresh demo_db) 42 4
                    demo_db_healthy demo_db_integrity)).
    intros (T & HT & _ & Hmay). simpl in HT. split_elems.
    destruct Hmay as [Hc|[Ha|Hadm]]; discriminate.
Defined.

(** *** C4 *)

(** C4. When the task lookup does not raise: for a task T with the given
    id, [check_task_access] returns the [allowed] flag and the role that
    [check_project_access] returns for T's project and the same user, with
    T as the object when allowed (and None otherwise); when no task has the
    given id it returns (False, None, None). *)
Theorem check_task_access_delegates (w : World) (task_id user_id : Z) :
  fault (db w) (TaskGet task_id) = None →
  NoDup (t_id <$> tasks (db w)) →
  (∀ T, T ∈ tasks (db w) → t_id T = task_id →
        ∃ allowed project role,
          value (check_project_access (t_project_id T) user_id) w
            = Returned (allowed, project, role)
          ∧ value (check_task_access task_id user_id) w
            = Returned (allowed, if allowed then Some T else None, role))
  ∧ ((∀ T, T ∈ tasks (db w) → t_id T ≠ task_id) →
     value (check_task_access task_id user_id) w = Returned (false, None, None)).
Proof.
  intros Hh Htk. split.
  - intros T HT Hid.
    pose proof (find_by_key_unique t_id task_id _ T Htk HT Hid) as Hf.
    run. rewrite Hh, Hf. simpl. cases; eexists _, _, _; split; reflexivity.
  - intros Hno. apply find_by_key_None in Hno.
    run. rewrite Hh, Hno. done.
Qed.

(** Task 42 belongs to project 7, where user 3 is an admin and user 99 is
    nobody. *)
Lemma check_task_access_delegates_witness :
  fault (db (fresh demo_db)) (TaskGet 42) = None
  ∧ NoDup (t_id <$> tasks (db (fresh demo_db)))
  ∧ (∃ allowed project role,
       value (check_project_access (t_project_id task42) 3) (fresh demo_db)
         = Returned (allowed, project, role)
       ∧ value (check_task_access 42 3) (fresh demo_db)
         = Returned (allowed, if allowed then Some task42 else None, role))
  ∧ value (check_task_access 43 3) (fresh demo_db) = Returned (false, None, None).
Proof.
  assert (Hnd : NoDup (t_id <$> tasks (db (fresh demo_db))))
    by apply NoDup_singleton.
  split; [reflexivity|]. split; [exact Hnd|]. split.
  - apply (proj1 (check_task_access_delegates (fresh demo_db) 42 3 eq_refl Hnd)
             task42).
    + simpl. by left.
    + reflexivity.
  - apply (proj2 (check_task_access_delegates (fresh demo_db) 43 3 eq_refl Hnd)).
    intros T HT. simpl in HT. split_elems. done.
Defined.

(** *** C5 *)

Ltac split_events :=
  repeat match goal with
         | H : _ ∈ _ :: _ |- _ => apply elem_of_cons in H as [?|H]
         | H : _ ∈ [] |- _ => by apply elem_of_nil in H
         end.

Ltac fail_closed_case :=
  eexists; split; [reflexivity|]; split; [reflexivity|];
  simpl; rewrite <- ?app_assoc, drop_app_length; simpl;
  intros (qx & ex & Hin & Hq);
  first [ by (split_events; simpl in *; simplify_eq; congruence)
        | split; [reflexivity | eexists; rewrite !elem_of_cons; eauto 6] ].

(** C5. Whatever the store does, each of the four checks returns a value
    (no exception reaches the caller) and leaves the store unchanged; and
    when a query it issued raised, it returns its fallback
    — (False, None, None), False, (False, None, None), (False, None) —
    after logging an error. *)
Theorem access_checks_fail_closed (w : World) (project_id task_id user_id : Z) :
  fails_closed (check_project_access project_id user_id) w (false, None, None)
  ∧ fails_closed (check_project_admin project_id user_id) w false
  ∧ fails_closed (check_task_access task_id user_id) w (false, None, None)
  ∧ fails_closed (can_modify_task task_id user_id) w (false, None).
Proof.
  repeat split.
  - run. cases; fail_closed_case.
  - run. cases; fail_closed_case.
  - run. cases; fail_closed_case.
  - run. cases; fail_closed_case.
Qed.


(** User 3 is an admin of project 7, yet with the membership table
    unreachable [can_modify_task 42 3] answers (False, None). *)
Lemma access_checks_fail_closed_witness :
  query_raised (can_modify_task 42 3) (fresh member_down_db)
  ∧ value (can_modify_task 42 3) (fresh member_down_db) = Returned (false, None)
  ∧ db (world_after (can_modify_task 42 3) (fresh member_down_db)) = member_down_db.
Proof.
  assert (Hq : query_raised (can_modify_task 42 3) (fresh member_down_db)).
  { exists (ProjectMemberFirst 7 3 (Some "admin")), "OperationalError".
    split; [|reflexivity].
    apply list_elem_of_In. vm_compute. right. right. left. reflexivity. }
  split; [exact Hq|].
  destruct (access_checks_fail_closed (fresh member_down_db) 7 42 3)
    as (_ & _ & _ & (r & Hv & Hdb & Hfb)).
  destruct (Hfb Hq) as [-> _]. split; [exact Hv | exact Hdb].
Defined.

(** *** C9 *)

(** C9. Whatever the store does, the components of each result agree:
    [check_project_access] and [check_task_access] return a True flag
    exactly when the object is not None and exactly when the role is not
    None; [can_modify_task] returns a True flag exactly when the task is
    not None. *)
Theorem access_results_coherent (w : World) (project_id task_id user_id : Z) :
  (∃ allowed project role,
     value (check_project_access project_id user_id) w
       = Returned (allowed, project, role)
     ∧ (allowed = true ↔ project ≠ None) ∧ (allowed = true ↔ role ≠ None))
  ∧ (∃ allowed task role,
       value (check_task_access task_id user_id) w
         = Returned (allowed, task, role)
       ∧ (allowed = true ↔ task ≠ None) ∧ (allowed = true ↔ role ≠ None))
  ∧ (∃ allowed task,
       value (can_modify_task task_id user_id) w = Returned (allowed, task)
       ∧ (allowed = true ↔ task ≠ None)).
Proof.
  split; [|split].
  - run. cases; eexists _, _, _; (split; [reflexivity|]); split; split; done.
  - run. cases; eexists _, _, _; (split; [reflexivity|]); split; split; done.
  - run. cases; eexists _, _; (split; [reflexivity|]); split; done.
Qed.

End permissions_facts.

(** ** Part IV.  Properties of [core/token_blacklist.py] *)

Section blacklist_facts.
Import token_blacklist.
Context {R : Type} `{RedisClient R}.

(** *** The two-phase cleanup *)

Lemma foldl_delete_lookup (ks : list string) (s : gmap string Z) (k : string) :
  foldl (λ s j, base.delete j s) s ks !! k
  = if decide (k ∈ ks) then None else s !! k.
Proof.
  revert s. induction ks as [|j ks IH]; intros s.
  - case_decide as Hin; [by apply elem_of_nil in Hin | done].
  - cbn [foldl]. rewrite IH.
    destruct (decide (k ∈ ks)) as [Hin|Hin].
    + rewrite decide_True; [done | by right].
    + destruct (decide (k = j)) as [->|Hne].
      * rewrite decide_True by left. apply lookup_delete_eq.
      * rewrite decide_False.
        -- by apply lookup_delete_ne.
        -- intros Hx. apply elem_of_cons in Hx as [?|?]; done.
Qed.

Lemma expired_keys_elem (now : Z) (s : gmap string Z) (k : string) :
  k ∈ expired_keys now s ↔ ∃ e, s !! k = Some e ∧ e ≤ now.
Proof.
  unfold expired_keys. rewrite list_elem_of_fmap. split.
  - intros ([k' e] & -> & Hin). apply list_elem_of_filter in Hin as [He Hin].
    apply elem_of_map_to_list in Hin. exists e. done.
  - intros (e & Hk & He). exists (k, e). split; [done|].
    apply list_elem_of_filter. split; [done|]. by apply elem_of_map_to_list.
Qed.

Lemma cleanup_lookup (now : Z) (s : gmap string Z) (k : string) :
  foldl (λ s j, base.delete j s) s (expired_keys now s) !! k
  = match s !! k with
    | Some e => if decide (e > now) then Some e else None
    | None => None
    end.
Proof.
  rewrite foldl_delete_lookup.
  destruct (decide (k ∈ expired_keys now s)) as [Hin|Hin].
  - apply expired_keys_elem in Hin as (e & -> & He).
    rewrite decide_False; [done | lia].
  - destruct (s !! k) as [e|] eqn:Hk; [|done].
    destruct (decide (e > now)) as [He|He]; [done|].
    exfalso. apply Hin. apply expired_keys_elem. exists e. split; [done | lia].
Qed.

Lemma cleanup_no_expired (now : Z) (s : gmap string Z) :
  no_expired now (foldl (λ s j, base.delete j s) s (expired_keys now s)).
Proof.
  intros k e. rewrite cleanup_lookup.
  destruct (s !! k) as [e'|]; [|done].
  destruct (decide (e' > now)); [|done]. by intros [= <-].
Qed.

Ltac brun :=
  unfold revoke_token, check_if_token_revoked, add, is_blacklisted, remove,
    _cleanup_expired, _get_redis_client, try_except, utcnow, logger_emit,
    get_memory_store, put_memory_store, redis_call,
    value, world_after, external_write, external_read, last_read,
    mbind, M_bind, mret, M_ret in *;
  simpl in *.

(** *** The expiry computed by [add] *)

Lemma datetime_add_ok {W : Type} (t delta : Z) (w : W) :
  representable (t + delta) →
  datetime_add t delta w = (Returned (t + delta), w).
Proof.
  intros Hr. unfold datetime_add. by rewrite bool_decide_eq_true_2.
Qed.

Lemma datetime_add_overflow {W : Type} (t delta : Z) (w : W) :
  ¬ representable (t + delta) →
  datetime_add t delta w
  = (Raised "OverflowError: date value out of range", w).
Proof.
  intros Hr. unfold datetime_add. by rewrite bool_decide_eq_false_2.
Qed.

(** *** Running [add] *)

Lemma add_value (w : World R) (jti : string) (ed : option Z) :
  representable (clock w (clock_reads w) + default (timedelta_hours 24) ed) →
  value (add jti ed) w = Returned true.
Proof.
  intros Hr. brun. rewrite datetime_add_ok by done. simpl.
  destruct (redis w) as [client|]; simpl.
  - destruct (setex _ _ _ client) as [[[]|e] r']; simpl; [done|].
    by destruct (expired_keys _ _).
  - by destruct (expired_keys _ _).
Qed.

Lemma add_external_store (w : World R) (jti : string) (ed : option Z) :
  representable (clock w (clock_reads w) + default (timedelta_hours 24) ed) →
  external_write w jti ed = Some (Returned tt) →
  memory_store (world_after (add jti ed) w) = memory_store w
  ∧ clock_reads (world_after (add jti ed) w) = S (S (clock_reads w)).
Proof.
  intros Hr. brun. rewrite datetime_add_ok by done. simpl.
  destruct (redis w) as [client|]; simpl; [|done].
  destruct (setex _ _ _ client) as [[[]|e] r']; simpl; [done|].
  intros [=].
Qed.

Lemma add_fallback_store (w : World R) (jti : string) (ed : option Z) :
  representable (clock w (clock_reads w) + default (timedelta_hours 24) ed) →
  unavailable (external_write w jti ed) →
  let store := <[jti := clock w (clock_reads w) + default (timedelta_hours 24) ed]>
                 (memory_store w) in
  memory_store (world_after (add jti ed) w)
  = foldl (λ s j, base.delete j s) store
          (expired_keys (last_read (world_after (add jti ed) w)) store).
Proof.
  intros Hr Hun. brun. rewrite datetime_add_ok by done. simpl.
  destruct (redis w) as [client|]; simpl in *.
  - destruct (setex _ _ _ client) as [[[]|e] r']; simpl in *.
    + destruct Hun as [Hun|[e Hun]]; discriminate.
    + destruct (expired_keys _ _) eqn:He; simpl; by rewrite He.
  - destruct (expired_keys _ _) eqn:He; simpl; by rewrite He.
Qed.

(** An expiry outside the range of [datetime] makes [add] raise before it
    consults the external store or writes to the map. *)
Lemma add_overflow_run (w : World R) (jti : string) (ed : option Z) :
  ¬ representable (clock w (clock_reads w) + default (timedelta_hours 24) ed) →
  add jti ed w
  = (Raised "OverflowError: date value out of range",
     {| memory_store := memory_store w; redis := redis w; clock := clock w;
        clock_reads := S (clock_reads w); log := log w |}).
Proof.
  intros Hr. brun. by rewrite datetime_add_overflow by done.
Qed.

(** *** Running [is_blacklisted] on the in-process map *)

Lemma is_blacklisted_in_process (w : World R) (jti : string) :
  unavailable (external_read w jti) →
  value (is_blacklisted jti) w
  = Returned match memory_store w !! jti with
             | Some e => bool_decide (e > clock w (clock_reads w))
             | None => false
             end
  ∧ memory_store (world_after (is_blacklisted jti) w)
    = match memory_store w !! jti with
      | Some e => if bool_decide (e > clock w (clock_reads w))
                  then memory_store w
                  else base.delete jti (memory_store w)
      | None => memory_store w
      end.
Proof.
  intros Hun. brun. destruct (redis w) as [client|]; simpl in *.
  - destruct (exists_ _ client) as [[n|e] r']; simpl in *.
    + destruct Hun as [Hun|[e Hun]]; discriminate.
    + destruct (memory_store w !! jti) as [e'|]; simpl; [|done].
      by destruct (bool_decide _).
  - destruct (memory_store w !! jti) as [e'|]; simpl; [|done].
    by destruct (bool_decide _).
Qed.

(** *** C6 *)

(** C6 (amended). On every call whose expiry now + ttl (ttl 24 hours when
    none is given) is a [datetime], that is, lies between [datetime.min]
    and [datetime.max], [add] returns True and does not raise.  When the
    write to the external store succeeds it returns at once, the in-process
    map untouched.  When the external store is absent or the write raises,
    the entry jti -> now + ttl is written to the in-process map and the
    cleanup then runs: after the call the map holds that entry if its
    expiry is later than the time the cleanup read, and holds no entry for
    jti otherwise. *)
Theorem add_always_true (w : World R) (jti : string) (expires_delta : option Z) :
  let w' := world_after (add jti expires_delta) w in
  let expires_at :=
    clock w (clock_reads w) + default (timedelta_hours 24) expires_delta in
  representable expires_at →
  value (add jti expires_delta) w = Returned true
  ∧ (external_write w jti expires_delta = Some (Returned tt) →
     memory_store w' = memory_store w)
  ∧ (unavailable (external_write w jti expires_delta) →
     memory_store w' !! jti
     = if decide (expires_at > last_read w') then Some expires_at else None).
Proof.
  intros w' expires_at Hr. split; [by apply add_value|]. split.
  - intros Hok. by apply add_external_store.
  - intros Hun. subst w'. rewrite (add_fallback_store _ _ _ Hr Hun).
    rewrite cleanup_lookup, lookup_insert_eq. done.
Qed.

(** *** C7 *)

(** C7. On the in-process backend, [is_blacklisted] answers True exactly
    for an entry whose expiry is later than the time read, and leaves the
    map alone then; an entry that has expired is deleted from the map at
    that read and the answer is False.  So after [add jti ttl] fell back to
    the in-process map (its expiry now + ttl being a [datetime], for the
    call to get that far), a later [is_blacklisted jti] returns True at
    every time before now + ttl, and False at every time at or after it,
    leaving no entry for jti. *)
Theorem is_blacklisted_after_add
    (w w2 : World R) (jti : string) (expires_delta : option Z) :
  let w1 := world_after (add jti expires_delta) w in
  let expires_at :=
    clock w (clock_reads w) + default (timedelta_hours 24) expires_delta in
  let now := clock w2 (clock_reads w2) in
  unavailable (external_read w2 jti) →
  (∀ e, memory_store w2 !! jti = Some e → e > now →
        value (is_blacklisted jti) w2 = Returned true
        ∧ memory_store (world_after (is_blacklisted jti) w2) = memory_store w2)
  ∧ (∀ e, memory_store w2 !! jti = Some e → e ≤ now →
        value (is_blacklisted jti) w2 = Returned false
        ∧ memory_store (world_after (is_blacklisted jti) w2)
          = base.delete jti (memory_store w2))
  ∧ (representable expires_at →
     unavailable (external_write w jti expires_delta) →
     memory_store w2 = memory_store w1 → last_read w1 ≤ now →
     (now < expires_at → value (is_blacklisted jti) w2 = Returned true)
     ∧ (expires_at ≤ now →
        value (is_blacklisted jti) w2 = Returned false
        ∧ memory_store (world_after (is_blacklisted jti) w2) !! jti = None)).
Proof.
  intros w1 expires_at now Hread.
  destruct (is_blacklisted_in_process w2 jti Hread) as [Hv Hs].
  fold now in Hv, Hs. split; [|split].
  - intros e He Hlt. rewrite Hv, Hs, He.
    by rewrite bool_decide_eq_true_2.
  - intros e He Hle. rewrite Hv, Hs, He.
    by rewrite bool_decide_eq_false_2 by lia.
  - intros Hr Hwrite Hstore Hafter.
    assert (Hlook : memory_store w2 !! jti
                    = if decide (expires_at > last_read w1)
                      then Some expires_at else None).
    { rewrite Hstore. subst w1. rewrite (add_fallback_store _ _ _ Hr Hwrite).
      rewrite cleanup_lookup, lookup_insert_eq. done. }
    split.
    + intros Hlt. rewrite Hv, Hlook.
      rewrite decide_True by lia. by rewrite bool_decide_eq_true_2 by lia.
    + intros Hle. rewrite Hv, Hs, Hlook.
      destruct (decide (expires_at > last_read w1)) as [Hgt|Hngt].
      * rewrite bool_decide_eq_false_2 by lia. split; [done|].
        apply lookup_delete_eq.
      * split; [done|]. exact Hlook.
Qed.

(** *** C8 *)

(** C8 (amended). [add] runs the cleanup on every call that falls back to
    the in-process map (external store absent, or its write raised): after
    such a call the map holds no entry whose expiry is at or before the
    time the cleanup read.  When the write to the external store succeeds,
    [add] returns before the cleanup, leaving the map as it was and the
    clock read twice only.  Both are calls that got as far as the external
    store, the expiry now + ttl being a [datetime]. *)
Theorem add_cleans_up_on_fallback
    (w : World R) (jti : string) (expires_delta : option Z) :
  let w' := world_after (add jti expires_delta) w in
  representable
    (clock w (clock_reads w) + default (timedelta_hours 24) expires_delta) →
  (unavailable (external_write w jti expires_delta) →
   no_expired (last_read w') (memory_store w'))
  ∧ (external_write w jti expires_delta = Some (Returned tt) →
     memory_store w' = memory_store w
     ∧ clock_reads w' = S (S (clock_reads w))).
Proof.
  intros w' Hr. split.
  - intros Hun. subst w'. rewrite (add_fallback_store _ _ _ Hr Hun).
    apply cleanup_no_expired.
  - intros Hok. by apply add_external_store.
Qed.

(** *** C10 *)

(** C10. For a payload without a "jti" key, [check_if_token_revoked] returns
    False and leaves the world exactly as it was, whatever the external
    store and the in-process map hold: neither is consulted, and nothing is
    raised. *)
Theorem check_if_token_revoked_missing_jti
    (w : World R) (jwt_header jwt_payload : gmap string (option string)) :
  jwt_payload !! "jti" = None →
  check_if_token_revoked jwt_header jwt_payload w = (Returned false, w).
Proof.
  intros Hjti. unfold check_if_token_revoked. by rewrite Hjti.
Qed.

End blacklist_facts.

Section blacklist_examples.
Import token_blacklist.

(** The claim C6 as stated fails for a zero ttl (what [logout] passes for a
    token at its expiry): with no external store and the clock standing
    still, [add "abc" 0] returns True but the map holds no entry for "abc"
    afterwards, the cleanup having removed it. *)
Lemma add_zero_ttl_entry_absent :
  external_write (memory_only frozen_clock) "abc" (Some 0) = None
  ∧ value (add "abc" (Some 0)) (memory_only frozen_clock) = Returned true
  ∧ memory_store (world_after (add "abc" (Some 0)) (memory_only frozen_clock))
      !! "abc" = None
  ∧ memory_store (world_after (add "abc" (Some 0)) (memory_only frozen_clock))
      !! "abc"
    ≠ Some (clock (memory_only frozen_clock)
                  (clock_reads (memory_only frozen_clock)) + 0).
Proof.
  split; [reflexivity|]. split; [reflexivity|]. split; [reflexivity|].
  vm_compute. discriminate.
Qed.

(** With Redis unreachable, [add "abc"] records "abc" with the default
    expiry of 24 hours from now in the map. *)
Lemma add_always_true_witness :
  representable (1000 + timedelta_hours 24)
  ∧ unavailable (external_write (redis_down frozen_clock) "abc" None)
  ∧ value (add "abc" None) (redis_down frozen_clock) = Returned true
  ∧ memory_store (world_after (add "abc" None) (redis_down frozen_clock)) !! "abc"
    = Some (1000 + 24 * 3600 * 1000000).
Proof.
  assert (Hr : representable (1000 + timedelta_hours 24))
    by (vm_compute; split; discriminate).
  assert (Hun : unavailable (external_write (redis_down frozen_clock) "abc" None))
    by (right; eexists; reflexivity).
  destruct (add_always_true (redis_down frozen_clock) "abc" None Hr)
    as (Hv & _ & Hfb).
  split; [exact Hr|]. split; [exact Hun|]. split; [exact Hv|].
  rewrite (Hfb Hun). reflexivity.
Defined.

(** A revocation for five seconds, on a clock that advances one second per
    read: revoked right after the [add], no longer revoked eight reads
    later. *)
Lemma is_blacklisted_after_add_witness :
  representable (1000 + 5000000)
  ∧ unavailable (external_write (memory_only ticking_clock) "abc" (Some 5000000))
  ∧ value (is_blacklisted "abc")
          (world_after (add "abc" (Some 5000000)) (memory_only ticking_clock))
    = Returned true
  ∧ value (is_blacklisted "abc")
          (later 8 (world_after (add "abc" (Some 5000000))
                                (memory_only ticking_clock)))
    = Returned false.
Proof.
  assert (Hun : unavailable
                  (external_write (memory_only ticking_clock) "abc" (Some 5000000)))
    by (left; reflexivity).
  assert (Hr : representable (1000 + 5000000))
    by (vm_compute; split; discriminate).
  split; [exact Hr|]. split; [exact Hun|]. split.
  - destruct (is_blacklisted_after_add (memory_only ticking_clock)
                (world_after (add "abc" (Some 5000000)) (memory_only ticking_clock))
                "abc" (Some 5000000)) as (_ & _ & Hafter).
    { left; reflexivity. }
    destruct (Hafter Hr Hun eq_refl) as [Htrue _].
    { vm_compute. discriminate. }
    apply Htrue. reflexivity.
  - destruct (is_blacklisted_after_add (memory_only ticking_clock)
                (later 8 (world_after (add "abc" (Some 5000000))
                                      (memory_only ticking_clock)))
                "abc" (Some 5000000)) as (_ & _ & Hafter).
    { left; reflexivity. }
    destruct (Hafter Hr Hun eq_refl) as [_ Hfalse].
    { vm_compute. discriminate. }
    apply Hfalse. vm_compute. discriminate.
Defined.

(** The claim C8 as stated fails when the write to the external store
    succeeds: [add] returns True, and the entry that expired at time 5 is
    still in the map at time 1000. *)
Lemma add_external_success_keeps_expired :
  external_write redis_up_stale "new-jti" None = Some (Returned tt)
  ∧ value (add "new-jti" None) redis_up_stale = Returned true
  ∧ memory_store (world_after (add "new-jti" None) redis_up_stale) !! "old-jti"
    = Some 5
  ∧ last_read (world_after (add "new-jti" None) redis_up_stale) = 1000
  ∧ ¬ no_expired (last_read (world_after (add "new-jti" None) redis_up_stale))
                 (memory_store (world_after (add "new-jti" None) redis_up_stale)).
Proof.
  split; [reflexivity|]. split; [reflexivity|].
  assert (Hold : memory_store (world_after (add "new-jti" None) redis_up_stale)
                   !! "old-jti" = Some 5) by reflexivity.
  split; [exact Hold|]. split; [reflexivity|].
  intros Hno. specialize (Hno "old-jti" 5 Hold). vm_compute in Hno. discriminate.
Qed.

(** Without Redis, the same stale entry is swept by the cleanup [add] runs. *)
Lemma add_cleans_up_on_fallback_witness :
  representable (1000 + timedelta_hours 24)
  ∧ unavailable (external_write memory_only_stale "new-jti" None)
  ∧ no_expired (last_read (world_after (add "new-jti" None) memory_only_stale))
               (memory_store (world_after (add "new-jti" None) memory_only_stale))
  ∧ external_write redis_up_stale "new-jti" None = Some (Returned tt)
  ∧ memory_store (world_after (add "new-jti" None) redis_up_stale)
    = memory_store redis_up_stale.
Proof.
  assert (Hun : unavailable (external_write memory_only_stale "new-jti" None))
    by (left; reflexivity).
  assert (Hr : representable (1000 + timedelta_hours 24))
    by (vm_compute; split; discriminate).
  split; [exact Hr|]. split; [exact Hun|]. split.
  - exact (proj1 (add_cleans_up_on_fallback memory_only_stale "new-jti" None Hr)
                 Hun).
  - split; [reflexivity|].
    exact (proj1 (proj2 (add_cleans_up_on_fallback redis_up_stale "new-jti" None
                                                   Hr)
                        eq_refl)).
Defined.

(** A payload with a subject but no "jti". *)
Lemma check_if_token_revoked_missing_jti_witness :
  ({[ "sub" := Some "1" ]} : gmap string (option string)) !! "jti" = None
  ∧ check_if_token_revoked ∅ {[ "sub" := Some "1" ]} redis_up_stale
    = (Returned false, redis_up_stale).
Proof.
  split; [reflexivity|].
  apply (check_if_token_revoked_missing_jti redis_up_stale ∅ {[ "sub" := Some "1" ]}).
  reflexivity.
Defined.

End blacklist_examples.

(** ** Part V.  Further properties of [core/token_blacklist.py] *)

Section blacklist_more.
Import token_blacklist token_blacklist_ext.
Context {R : Type} `{RedisClient R} `{RedisKeys R}.

Ltac brun2 :=
  unfold get_blacklist_count, revoke_token, check_if_token_revoked, add,
    is_blacklisted, remove,
    _cleanup_expired, _get_redis_client, try_except, utcnow, logger_emit,
    get_memory_store, put_memory_store, redis_call,
    value, world_after, external_write, external_read, external_delete,
    external_keys, last_read,
    mbind, M_bind, mret, M_ret in *;
  simpl in *.

Lemma add_fallback_lookup (w : World R) (jti : string) (ed : option Z) :
  representable (clock w (clock_reads w) + default (timedelta_hours 24) ed) →
  unavailable (external_write w jti ed) →
  memory_store (world_after (add jti ed) w) !! jti
  = if decide (clock w (clock_reads w) + default (timedelta_hours 24) ed
               > last_read (world_after (add jti ed) w))
    then Some (clock w (clock_reads w) + default (timedelta_hours 24) ed)
    else None.
Proof.
  intros Hrep Hun. rewrite (add_fallback_store _ _ _ Hrep Hun).
  by rewrite cleanup_lookup, lookup_insert_eq.
Qed.

(** X1.  When the existence check of the external store answers, [is_blacklisted]
    returns whether the count is positive; the in-process map is neither
    changed nor looked at and the clock is not read.  An entry held only by
    the in-process map is therefore not honoured while Redis answers. *)
Theorem is_blacklisted_external_answer (w : World R) (jti : string) (n : Z) :
  external_read w jti = Some (Returned n) →
  value (is_blacklisted jti) w = Returned (bool_decide (n > 0))
  ∧ memory_store (world_after (is_blacklisted jti) w) = memory_store w
  ∧ clock_reads (world_after (is_blacklisted jti) w) = clock_reads w.
Proof.
  brun2. destruct (redis w) as [client|]; simpl; [|done].
  destruct (exists_ _ client) as [[m|e] r']; simpl; [|done].
  by intros [= ->].
Qed.

(** X2.  None of the three public operations lets an exception of the external
    store out: each returns a value in every world. *)
Theorem blacklist_operations_never_raise (w : World R) (jti : string) :
  (∃ b, value (is_blacklisted jti) w = Returned b)
  ∧ (∃ b, value (remove jti) w = Returned b)
  ∧ (∃ n, value get_blacklist_count w = Returned n).
Proof.
  split; [|split]; brun2.
  - destruct (redis w) as [client|]; simpl.
    + destruct (exists_ _ client) as [[m|e] r']; simpl; [by eexists|].
      destruct (memory_store w !! jti); simpl; [|by eexists].
      destruct (bool_decide _); by eexists.
    + destruct (memory_store w !! jti); simpl; [|by eexists].
      destruct (bool_decide _); by eexists.
  - destruct (redis w) as [client|]; simpl.
    + destruct (delete _ client) as [[m|e] r']; simpl; [by eexists|].
      destruct (memory_store w !! jti); by eexists.
    + destruct (memory_store w !! jti); by eexists.
  - destruct (redis w) as [client|]; simpl.
    + destruct (keys_matching _ client) as [[ks|e] r']; simpl; [by eexists|].
      destruct (expired_keys _ _); by eexists.
    + destruct (expired_keys _ _); by eexists.
Qed.

(** X3.  [remove] on the in-process map (external store absent, or its
    [delete] raised): it returns True exactly when the map held an entry
    for the jti, expired or not, and the map afterwards is the old one
    without that entry. *)
Theorem remove_in_process (w : World R) (jti : string) :
  unavailable (external_delete w jti) →
  value (remove jti) w = Returned (bool_decide (is_Some (memory_store w !! jti)))
  ∧ memory_store (world_after (remove jti) w) = base.delete jti (memory_store w).
Proof.
  intros Hun. brun2. destruct (redis w) as [client|]; simpl in *.
  - destruct (delete _ client) as [[m|e] r']; simpl in *.
    + destruct Hun as [Hun|[e Hun]]; discriminate.
    + destruct (memory_store w !! jti) as [x|] eqn:Hk; simpl.
      * split; [|done]. by rewrite ?bool_decide_eq_true_2 by eauto.
      * rewrite ?bool_decide_eq_false_2 by (by intros [? ?]).
        split; [done|]. symmetry. by apply delete_id.
  - destruct (memory_store w !! jti) as [x|] eqn:Hk; simpl.
    + split; [|done]. by rewrite ?bool_decide_eq_true_2 by eauto.
    + rewrite ?bool_decide_eq_false_2 by (by intros [? ?]).
      split; [done|]. symmetry. by apply delete_id.
Qed.

(** X4.  [remove] when the external [delete] answers: it returns True whatever
    the number of keys removed (also zero), and the in-process map keeps
    its entry for the jti. *)
Theorem remove_external_answer (w : World R) (jti : string) (n : Z) :
  external_delete w jti = Some (Returned n) →
  value (remove jti) w = Returned true
  ∧ memory_store (world_after (remove jti) w) = memory_store w.
Proof.
  brun2. destruct (redis w) as [client|]; simpl; [|done].
  destruct (delete _ client) as [[m|e] r']; simpl; [done|]. intros [=].
Qed.

(** X5.  Round trip without an external store: when the expiry now + ttl is
    a [datetime] (so that [add] does not raise), after [add] then [remove],
    [is_blacklisted] answers False and the map has no entry for the jti,
    whatever the clock reads later. *)
Theorem add_remove_round_trip
    (w : World R) (jti : string) (expires_delta : option Z) :
  redis w = None →
  representable
    (clock w (clock_reads w) + default (timedelta_hours 24) expires_delta) →
  value (add jti expires_delta;; remove jti;; is_blacklisted jti) w = Returned false
  ∧ memory_store
      (world_after (add jti expires_delta;; remove jti;; is_blacklisted jti) w)
      !! jti = None.
Proof.
  intros Hr Hrep. brun2. rewrite datetime_add_ok by done. simpl.
  rewrite Hr. simpl.
  destruct (expired_keys _ _) eqn:He; simpl.
  - rewrite lookup_insert_eq. simpl.
    rewrite lookup_delete_eq. simpl. split; [done|]. apply lookup_delete_eq.
  - match goal with
    | |- context [foldl ?f ?s0 ?l !! jti] => destruct (foldl f s0 l !! jti) eqn:Hk
    end; simpl.
    + rewrite lookup_delete_eq. simpl. split; [done|]. apply lookup_delete_eq.
    + rewrite Hk. simpl. done.
Qed.

(** X6.  Logout followed by a request, without an external store: when the
    expiry now + ttl is a [datetime] (so that [revoke_token] does not
    raise), [revoke_token jti] and then [check_if_token_revoked] on a
    payload carrying that jti answers True exactly when the expiry is later
    both than the time the cleanup of the [add] read and than the time the
    check read. *)
Theorem revoke_then_check
    (w : World R) (jti : string) (expires_delta : option Z)
    (jwt_header jwt_payload : gmap string (option string)) :
  redis w = None →
  representable
    (clock w (clock_reads w) + default (timedelta_hours 24) expires_delta) →
  jwt_payload !! "jti" = Some (Some jti) →
  value (revoke_token jti expires_delta;;
         check_if_token_revoked jwt_header jwt_payload) w
  = Returned
      (bool_decide (clock w (clock_reads w)
                    + default (timedelta_hours 24) expires_delta
                    > clock w (S (clock_reads w)))
       && bool_decide (clock w (clock_reads w)
                       + default (timedelta_hours 24) expires_delta
                       > clock w (S (S (clock_reads w))))).
Proof.
  intros Hr Hrep Hjti.
  set (ea := clock w (clock_reads w) + default (timedelta_hours 24) expires_delta)
    in *.
  unfold revoke_token, check_if_token_revoked. rewrite Hjti. simpl.
  brun2. fold ea. rewrite datetime_add_ok by done. simpl.
  rewrite Hr. simpl. fold ea.
  set (ks := expired_keys (clock w (S (clock_reads w)))
                          (<[jti:=ea]> (memory_store w))).
  set (st := foldl _ _ ks).
  assert (Hst : st !! jti
                = if bool_decide (ea > clock w (S (clock_reads w)))
                  then Some ea else None).
  { subst st ks. rewrite cleanup_lookup, lookup_insert_eq.
    case_decide; case_bool_decide; done. }
  clearbody st.
  destruct ks; simpl; rewrite Hst;
    destruct (bool_decide (ea > clock w (S (clock_reads w)))); simpl;
    try done; by destruct (bool_decide _).
Qed.

(** X7.  Calling [add] again for a jti replaces the recorded expiry by that of
    the second call, be it later or earlier than the first (no external
    store; the expiry of each call being a [datetime], so that neither
    raises). *)
Theorem add_twice_replaces_expiry
    (w : World R) (jti : string) (first_delta second_delta : option Z) :
  redis w = None →
  representable
    (clock w (clock_reads w) + default (timedelta_hours 24) first_delta) →
  representable
    (clock w (S (S (clock_reads w)))
     + default (timedelta_hours 24) second_delta) →
  memory_store (world_after (add jti first_delta;; add jti second_delta) w) !! jti
  = if decide (clock w (S (S (clock_reads w)))
               + default (timedelta_hours 24) second_delta
               > clock w (S (S (S (clock_reads w)))))
    then Some (clock w (S (S (clock_reads w)))
               + default (timedelta_hours 24) second_delta)
    else None.
Proof.
  intros Hr Hrep1 Hrep2.
  assert (Hw1 : redis (world_after (add jti first_delta) w) = None
                ∧ clock (world_after (add jti first_delta) w) = clock w
                ∧ clock_reads (world_after (add jti first_delta) w)
                  = S (S (clock_reads w))).
  { clear Hrep2. brun2. rewrite datetime_add_ok by done. simpl.
    rewrite Hr. simpl. by destruct (expired_keys _ _). }
  destruct Hw1 as (Hr1 & Hc1 & Hn1).
  assert (Hrep2' : representable
                     (clock (world_after (add jti first_delta) w)
                        (clock_reads (world_after (add jti first_delta) w))
                      + default (timedelta_hours 24) second_delta))
    by (by rewrite Hc1, Hn1).
  assert (Hseq : world_after (add jti first_delta;; add jti second_delta) w
                 = world_after (add jti second_delta)
                               (world_after (add jti first_delta) w)).
  { unfold world_after, mbind, M_bind.
    pose proof (add_value w jti first_delta Hrep1) as Hv. unfold value in Hv.
    destruct (add jti first_delta w) as [o w1]. simpl in *. by rewrite Hv. }
  rewrite Hseq.
  pose proof (add_fallback_lookup
                (world_after (add jti first_delta) w) jti second_delta Hrep2')
    as Hl.
  rewrite Hl; [|by left; unfold external_write; rewrite Hr1].
  assert (Hlast : last_read (world_after (add jti second_delta)
                               (world_after (add jti first_delta) w))
                  = clock w (S (S (S (clock_reads w))))).
  { clear Hl Hseq. revert Hr1 Hc1 Hn1 Hrep2'.
    generalize (world_after (add jti first_delta) w). intros w1 Hr1 Hc1 Hn1 Hrep2'.
    clear Hrep1 Hrep2. brun2. rewrite datetime_add_ok by done. simpl.
    rewrite Hr1. simpl.
    destruct (expired_keys _ _); simpl; by rewrite Hc1, Hn1. }
  by rewrite Hlast, Hc1, Hn1.
Qed.

(** X8.  What a fallback [add] does to the other entries of the in-process
    map: an entry of another jti is kept exactly when its expiry is later
    than the time the cleanup read, and is dropped otherwise.  (A call
    falls back when it got as far as the external store, its expiry being a
    [datetime], and that store is absent or raised.) *)
Theorem add_fallback_other_entries
    (w : World R) (jti other : string) (expires_delta : option Z) :
  representable
    (clock w (clock_reads w) + default (timedelta_hours 24) expires_delta) →
  unavailable (external_write w jti expires_delta) →
  other ≠ jti →
  memory_store (world_after (add jti expires_delta) w) !! other
  = match memory_store w !! other with
    | Some e =>
        if decide (e > last_read (world_after (add jti expires_delta) w))
        then Some e else None
    | None => None
    end.
Proof.
  intros Hrep Hun Hne. rewrite (add_fallback_store _ _ _ Hrep Hun).
  rewrite cleanup_lookup. by rewrite lookup_insert_ne.
Qed.

(** X9.  [is_blacklisted jti] never touches the entry of another jti, whichever
    backend answers; lazy eviction concerns the queried jti only. *)
Theorem is_blacklisted_other_entries (w : World R) (jti other : string) :
  other ≠ jti →
  memory_store (world_after (is_blacklisted jti) w) !! other
  = memory_store w !! other.
Proof.
  intros Hne. brun2. destruct (redis w) as [client|]; simpl.
  - destruct (exists_ _ client) as [[m|e] r']; simpl; [done|].
    destruct (memory_store w !! jti); simpl; [|done].
    destruct (bool_decide _); simpl; [done|]. by apply lookup_delete_ne.
  - destruct (memory_store w !! jti); simpl; [|done].
    destruct (bool_decide _); simpl; [done|]. by apply lookup_delete_ne.
Qed.

(** X10.  [get_blacklist_count] on the in-process map (external store absent, or
    its [keys] raised): it first drops the entries that expired at the time
    it reads, then returns the number of entries left. *)
Theorem get_blacklist_count_in_process (w : World R) :
  unavailable (external_keys w) →
  let w' := world_after get_blacklist_count w in
  value get_blacklist_count w = Returned (size (memory_store w'))
  ∧ no_expired (clock w (clock_reads w)) (memory_store w')
  ∧ ∀ jti, memory_store w' !! jti
           = match memory_store w !! jti with
             | Some e => if decide (e > clock w (clock_reads w))
                         then Some e else None
             | None => None
             end.
Proof.
  intros Hun.
  assert (Hrun : value get_blacklist_count w
                 = Returned (size (memory_store (world_after get_blacklist_count w)))
                 ∧ memory_store (world_after get_blacklist_count w)
                   = foldl (λ s j, base.delete j s) (memory_store w)
                       (expired_keys (clock w (clock_reads w)) (memory_store w))).
  { brun2. destruct (redis w) as [client|]; simpl in *.
    - destruct (keys_matching _ client) as [[ks|e] r']; simpl in *.
      + destruct Hun as [Hun|[e Hun]]; discriminate.
      + by destruct (expired_keys _ _).
    - by destruct (expired_keys _ _). }
  destruct Hrun as [Hv Hs]. simpl. split; [exact Hv|]. rewrite Hs. split.
  - apply cleanup_no_expired.
  - intros jti. apply cleanup_lookup.
Qed.

(** X11.  [get_blacklist_count] when the external [keys] answers: the number of
    keys it lists, the in-process map being neither cleaned nor counted. *)
Theorem get_blacklist_count_external (w : World R) (ks : list string) :
  external_keys w = Some (Returned ks) →
  value get_blacklist_count w = Returned (length ks)
  ∧ memory_store (world_after get_blacklist_count w) = memory_store w.
Proof.
  brun2. destruct (redis w) as [client|]; simpl; [|done].
  destruct (keys_matching _ client) as [[l|e] r']; simpl; [|done].
  by intros [= ->].
Qed.

(** X30.  An expiry now + ttl outside the range of [datetime] makes [add], and
    [revoke_token] with it, raise [OverflowError]: the sum is computed
    before the [try], so the external store is not called, the in-process
    map is not written and nothing is logged. *)
Theorem add_overflow_raises
    (w : World R) (jti : string) (expires_delta : option Z) :
  ¬ representable
      (clock w (clock_reads w) + default (timedelta_hours 24) expires_delta) →
  (∃ e, value (add jti expires_delta) w = Raised e)
  ∧ (∃ e, value (revoke_token jti expires_delta) w = Raised e)
  ∧ memory_store (world_after (add jti expires_delta) w) = memory_store w
  ∧ redis (world_after (add jti expires_delta) w) = redis w
  ∧ log (world_after (add jti expires_delta) w) = log w.
Proof.
  intros Hr. unfold revoke_token, value, world_after.
  rewrite (add_overflow_run _ _ _ Hr). simpl.
  split; [by eexists|]. split; [by eexists|]. done.
Qed.

End blacklist_more.

Section blacklist_more_examples.
Import token_blacklist token_blacklist_ext.

Lemma is_blacklisted_external_answer_witness :
  external_read redis_up_memory_live "live-jti" = Some (Returned 0)
  ∧ memory_store redis_up_memory_live !! "live-jti" = Some 2000
  ∧ value (is_blacklisted "live-jti") redis_up_memory_live = Returned false.
Proof.
  split; [reflexivity|]. split; [reflexivity|].
  exact (proj1 (is_blacklisted_external_answer
                  redis_up_memory_live "live-jti" 0 eq_refl)).
Defined.

Lemma remove_in_process_witness :
  unavailable (external_delete memory_two_entries "live-jti")
  ∧ value (remove "live-jti") memory_two_entries = Returned true
  ∧ memory_store (world_after (remove "live-jti") memory_two_entries)
    = base.delete "live-jti" (memory_store memory_two_entries).
Proof.
  assert (Hun : unavailable (external_delete memory_two_entries "live-jti"))
    by (left; reflexivity).
  split; [exact Hun|].
  exact (remove_in_process memory_two_entries "live-jti" Hun).
Defined.

Lemma remove_external_answer_witness :
  external_delete redis_up_memory_live "live-jti" = Some (Returned 0)
  ∧ value (remove "live-jti") redis_up_memory_live = Returned true
  ∧ memory_store (world_after (remove "live-jti") redis_up_memory_live)
    = memory_store redis_up_memory_live.
Proof.
  split; [reflexivity|].
  exact (remove_external_answer redis_up_memory_live "live-jti" 0 eq_refl).
Defined.

Lemma add_remove_round_trip_witness :
  redis (memory_only ticking_clock) = None
  ∧ representable (1000 + timedelta_hours 24)
  ∧ value (add "abc" None;; remove "abc";; is_blacklisted "abc")
          (memory_only ticking_clock) = Returned false.
Proof.
  assert (Hrep : representable (1000 + timedelta_hours 24))
    by (vm_compute; split; discriminate).
  split; [reflexivity|]. split; [exact Hrep|].
  exact (proj1 (add_remove_round_trip (memory_only ticking_clock) "abc" None
                                      eq_refl Hrep)).
Defined.

Lemma revoke_then_check_witness :
  redis (memory_only ticking_clock) = None
  ∧ representable (1000 + 5000000)
  ∧ ({[ "jti" := Some "abc" ]} : gmap string (option string)) !! "jti"
    = Some (Some "abc")
  ∧ value (revoke_token "abc" (Some 5000000);;
           check_if_token_revoked ∅ {[ "jti" := Some "abc" ]})
          (memory_only ticking_clock) = Returned true.
Proof.
  assert (Hjti : ({[ "jti" := Some "abc" ]} : gmap string (option string))
                   !! "jti" = Some (Some "abc")) by reflexivity.
  assert (Hrep : representable (1000 + 5000000))
    by (vm_compute; split; discriminate).
  split; [reflexivity|]. split; [exact Hrep|]. split; [exact Hjti|].
  rewrite (revoke_then_check (memory_only ticking_clock) "abc" (Some 5000000)
             ∅ {[ "jti" := Some "abc" ]} eq_refl Hrep Hjti).
  reflexivity.
Defined.

Lemma add_twice_replaces_expiry_witness :
  redis (memory_only ticking_clock) = None
  ∧ representable (1000 + timedelta_hours 24)
  ∧ representable (1000 + 2 * 1000000 + 5000000)
  ∧ memory_store (world_after (add "abc" None;; add "abc" (Some 5000000))
                              (memory_only ticking_clock)) !! "abc"
    = Some (1000 + 2 * 1000000 + 5000000).
Proof.
  assert (Hrep1 : representable (1000 + timedelta_hours 24))
    by (vm_compute; split; discriminate).
  assert (Hrep2 : representable (1000 + 2 * 1000000 + 5000000))
    by (vm_compute; split; discriminate).
  split; [reflexivity|]. split; [exact Hrep1|]. split; [exact Hrep2|].
  rewrite (add_twice_replaces_expiry (memory_only ticking_clock) "abc"
             None (Some 5000000) eq_refl Hrep1 Hrep2).
  reflexivity.
Defined.

(** [timedelta.max], 999999999 days 23:59:59.999999, as the ttl. *)
Lemma add_overflow_raises_witness :
  ¬ representable (1000 + 86399999999999999999)
  ∧ (∃ e, value (add "abc" (Some 86399999999999999999))
                (memory_only frozen_clock) = Raised e)
  ∧ memory_store (world_after (add "abc" (Some 86399999999999999999))
                              (memory_only frozen_clock))
    = memory_store (memory_only frozen_clock).
Proof.
  assert (Hr : ¬ representable (1000 + 86399999999999999999))
    by (unfold representable, datetime_min, datetime_max; lia).
  destruct (add_overflow_raises (memory_only frozen_clock) "abc"
              (Some 86399999999999999999) Hr) as (Hv & _ & Hm & _).
  split; [exact Hr|]. split; [exact Hv | exact Hm].
Defined.

Lemma add_fallback_other_entries_witness :
  representable (1000 + timedelta_hours 24)
  ∧ unavailable (external_write memory_two_entries "new-jti" None)
  ∧ memory_store (world_after (add "new-jti" None) memory_two_entries) !! "old-jti"
    = None
  ∧ memory_store (world_after (add "new-jti" None) memory_two_entries) !! "live-jti"
    = Some 2000.
Proof.
  assert (Hun : unavailable (external_write memory_two_entries "new-jti" None))
    by (left; reflexivity).
  assert (Hrep : representable (1000 + timedelta_hours 24))
    by (vm_compute; split; discriminate).
  split; [exact Hrep|]. split; [exact Hun|]. split.
  - rewrite (add_fallback_other_entries memory_two_entries "new-jti" "old-jti"
               None Hrep Hun); [reflexivity | discriminate].
  - rewrite (add_fallback_other_entries memory_two_entries "new-jti" "live-jti"
               None Hrep Hun); [reflexivity | discriminate].
Defined.

Lemma is_blacklisted_other_entries_witness :
  "live-jti" ≠ "old-jti"
  ∧ value (is_blacklisted "old-jti") memory_two_entries = Returned false
  ∧ memory_store (world_after (is_blacklisted "old-jti") memory_two_entries)
      !! "live-jti" = Some 2000.
Proof.
  assert (Hne : "live-jti" ≠ "old-jti") by discriminate.
  split; [exact Hne|]. split; [reflexivity|].
  rewrite (is_blacklisted_other_entries memory_two_entries "old-jti" "live-jti" Hne).
  reflexivity.
Defined.

Lemma get_blacklist_count_in_process_witness :
  unavailable (external_keys memory_two_entries)
  ∧ value get_blacklist_count memory_two_entries = Returned 1%nat.
Proof.
  assert (Hun : unavailable (external_keys memory_two_entries))
    by (left; reflexivity).
  split; [exact Hun|].
  rewrite (proj1 (get_blacklist_count_in_process memory_two_entries Hun)).
  reflexivity.
Defined.

Lemma get_blacklist_count_external_witness :
  external_keys redis_up_memory_live = Some (Returned [])
  ∧ value get_blacklist_count redis_up_memory_live = Returned 0%nat
  ∧ memory_store (world_after get_blacklist_count redis_up_memory_live)
    = memory_store redis_up_memory_live.
Proof.
  split; [reflexivity|].
  exact (get_blacklist_count_external redis_up_memory_live [] eq_refl).
Defined.

End blacklist_more_examples.

(** ** Part VI.  Further properties of [services/permissions.py] *)

Section permissions_more.
Import permissions.

Ltac run2 :=
  unfold fails_closed, query_raised, emitted, value, world_after,
    can_modify_task, check_task_access, check_project_member,
    check_project_access, check_project_admin, try_except,
    Project_query_get, ProjectMember_query_filter_by_first, Task_query_get,
    run_query, logger_error, record, mbind, M_bind, mret, M_ret, deny3 in *;
  simpl in *.

Ltac cases2 := repeat (case_match; simpl in *; simplify_eq).

Lemma check_project_member_value (w : World) (pid uid : Z)
    (a : bool) (P : option Project) (r : option string) :
  value (check_project_access pid uid) w = Returned (a, P, r) →
  value (check_project_member pid uid) w = Returned a.
Proof.
  unfold value, check_project_member, mbind, M_bind.
  destruct (check_project_access pid uid w) as [[[[a' P'] r']|e] w']; simpl.
  - by intros [= -> _ _].
  - discriminate.
Qed.

Lemma admin_true_access (w : World) (pid uid : Z) :
  healthy (db w) → integrity (db w) →
  value (check_project_admin pid uid) w = Returned true →
  ∃ P role,
    value (check_project_access pid uid) w = Returned (true, Some P, Some role)
    ∧ (role = "owner" ∨ role = "admin").
Proof.
  intros Hh (Hpk & _ & Huniq) Hadm.
  rewrite (check_project_admin_healthy _ _ _ Hh) in Hadm.
  rewrite (check_project_access_healthy _ _ _ Hh).
  destruct (find _ (projects (db w))) as [P|]; [|done].
  destruct (p_owner_id P =? uid).
  - exists P, "owner". split; [done | by left].
  - simpl in Hadm. injection Hadm as Hadm.
    apply bool_decide_eq_true in Hadm.
    apply find_admin_row_iff in Hadm as (r & Hr & Hrole).
    rewrite (find_member_unique _ _ _ r Huniq Hr).
    exists P, (m_role r). split; [done | by right].
Qed.

(** X12.  Whoever [check_project_admin] accepts, [check_project_access] and
    [check_project_member] accept too, with role "owner" or "admin" (store
    without faults, schema constraints). *)
Theorem project_admin_has_access (w : World) (project_id user_id : Z) :
  healthy (db w) → integrity (db w) →
  value (check_project_admin project_id user_id) w = Returned true →
  ∃ P role,
    value (check_project_access project_id user_id) w
      = Returned (true, Some P, Some role)
    ∧ (role = "owner" ∨ role = "admin")
    ∧ value (check_project_member project_id user_id) w = Returned true.
Proof.
  intros Hh Hint Hadm.
  destruct (admin_true_access _ _ _ Hh Hint Hadm) as (P & role & Hv & Hrole).
  exists P, role. split; [done|]. split; [done|].
  by apply (check_project_member_value _ _ _ _ _ _ Hv).
Qed.

(** X13.  The creator and the assignee of a task may modify it whatever the
    project and membership tables hold or do: [can_modify_task] issues the
    task lookup only and returns (True, task), also for a user with no
    access to the project. *)
Theorem stakeholder_can_modify (w : World) (task_id user_id : Z) (T : Task) :
  fault (db w) (TaskGet task_id) = None →
  NoDup (t_id <$> tasks (db w)) →
  T ∈ tasks (db w) → t_id T = task_id →
  t_created_by T = user_id ∨ t_assigned_to T = Some user_id →
  value (can_modify_task task_id user_id) w = Returned (true, Some T)
  ∧ emitted (can_modify_task task_id user_id) w = [Queried (TaskGet task_id)].
Proof.
  intros Hf Hnd HT Hid Hst.
  pose proof (find_by_key_unique t_id task_id _ T Hnd HT Hid) as Hfind.
  assert (Hb : (t_created_by T =? user_id)
               || bool_decide (t_assigned_to T = Some user_id) = true).
  { apply orb_true_iff. destruct Hst as [Hc|Ha].
    - left. by apply Z.eqb_eq.
    - right. by apply bool_decide_eq_true. }
  run2. rewrite Hf, Hfind. simpl. rewrite Hb. simpl.
  split; [done|]. by rewrite drop_app_length.
Qed.

(** X14.  The owner's access does not depend on the membership table: with the
    project lookup working, [check_project_access] returns
    (True, project, "owner") and [check_project_admin] True after that one
    query, even when every membership query would raise. *)
Theorem owner_access_needs_project_only
    (w : World) (project_id user_id : Z) (P : Project) :
  fault (db w) (ProjectGet project_id) = None →
  NoDup (p_id <$> projects (db w)) →
  P ∈ projects (db w) → p_id P = project_id → p_owner_id P = user_id →
  value (check_project_access project_id user_id) w
    = Returned (true, Some P, Some "owner")
  ∧ emitted (check_project_access project_id user_id) w
    = [Queried (ProjectGet project_id)]
  ∧ value (check_project_admin project_id user_id) w = Returned true
  ∧ emitted (check_project_admin project_id user_id) w
    = [Queried (ProjectGet project_id)].
Proof.
  intros Hf Hnd HP Hid Ho.
  pose proof (find_by_key_unique p_id project_id _ P Hnd HP Hid) as Hfind.
  apply Z.eqb_eq in Ho.
  run2. rewrite Hf, Hfind. simpl. rewrite Ho. simpl.
  rewrite drop_app_length. done.
Qed.

(** X16.  A user whom [can_modify_task] lets modify a task is its creator, its
    assignee, or someone [check_task_access] admits to the task with role
    "owner" or "admin" (store without faults, schema constraints). *)
Theorem modify_means_stakeholder_or_admin
    (w : World) (task_id user_id : Z) (T : Task) :
  healthy (db w) → integrity (db w) →
  value (can_modify_task task_id user_id) w = Returned (true, Some T) →
  t_created_by T = user_id
  ∨ t_assigned_to T = Some user_id
  ∨ ∃ role, value (check_task_access task_id user_id) w
              = Returned (true, Some T, Some role)
            ∧ (role = "owner" ∨ role = "admin").
Proof.
  intros Hh Hint Hmod.
  rewrite (can_modify_task_healthy _ _ _ (Hh _)) in Hmod.
  destruct (find (λ t, t_id t =? task_id) (tasks (db w))) as [T'|] eqn:Hfind;
    [|discriminate].
  destruct (Z.eqb_spec (t_created_by T') user_id) as [Hc|Hc].
  { simpl in Hmod. injection Hmod as <-. by left. }
  destruct (decide (t_assigned_to T' = Some user_id)) as [Ha|Ha].
  { rewrite (bool_decide_eq_true_2 _ Ha) in Hmod. simpl in Hmod.
    injection Hmod as <-. right. by left. }
  rewrite (bool_decide_eq_false_2 _ Ha) in Hmod. simpl in Hmod.
  destruct (value (check_project_admin (t_project_id T') user_id) w)
    as [[|]|e] eqn:Hadm; try discriminate.
  injection Hmod as <-. right. right.
  destruct (admin_true_access _ _ _ Hh Hint Hadm) as (P & role & Hv & Hrole).
  exists role. split; [|done].
  clear Hadm. run2. rewrite (Hh _), Hfind. simpl.
  rewrite (Hh _) in *. simpl in *.
  destruct (find _ (projects (db w))) as [P'|]; simpl in *; [|discriminate].
  destruct (p_owner_id P' =? user_id); simpl in *.
  - by injection Hv as -> <-.
  - rewrite (Hh _) in *. simpl in *.
    destruct (find _ (project_members (db w))); simpl in *; [|discriminate].
    by injection Hv as -> <-.
Qed.

End permissions_more.

(** ** Part VI-b.  The task check of [api/tasks.py] *)

Section api_tasks_facts.
Import permissions.

Ltac arun :=
  unfold api_tasks.check_task_access, api_tasks.check_project_access,
    api_tasks.Task_query_options_joinedload_project_get,
    api_tasks.Project_query_options_joinedload_owner_get,
    api_tasks.in_session, api_tasks.remember_project, api_tasks.remember_task,
    api_tasks.joined_load_issued, api_tasks.with_world,
    value, world_after, try_except,
    Project_query_get, ProjectMember_query_filter_by_first,
    run_query, logger_error, record, mbind, M_bind, mret, M_ret in *;
  simpl in *.

Lemma api_check_project_access_returns
    (r : api_tasks.Request) (pid uid : Z) :
  ∃ res, value (api_tasks.check_project_access pid uid) r = Returned res.
Proof.
  arun. repeat (case_match; simpl in *; simplify_eq); by eexists.
Qed.

(** While the session does not hold the project, the check inside the
    request is [services.permissions.check_project_access] run on the world
    of the request, whatever the queries do. *)
Lemma api_check_project_access_unloaded
    (r : api_tasks.Request) (pid uid : Z) :
  api_tasks.session_projects r !! pid = None →
  value (api_tasks.check_project_access pid uid) r
  = value (check_project_access pid uid) (api_tasks.world r)
  ∧ api_tasks.world (world_after (api_tasks.check_project_access pid uid) r)
    = world_after (check_project_access pid uid) (api_tasks.world r).
Proof.
  intros Hs. unfold check_project_access. arun. rewrite Hs.
  repeat (case_match; simpl in *; simplify_eq); done.
Qed.

(** On a store without faults, the check inside the request answers as
    [services.permissions.check_project_access] does on the store, provided
    the project the session holds under that key, if any, is the row of
    the store. *)
Lemma api_check_project_access_healthy
    (r : api_tasks.Request) (pid uid : Z) :
  healthy (db (api_tasks.world r)) →
  (∀ P, api_tasks.session_projects r !! pid = Some P →
        find (λ p, p_id p =? pid) (projects (db (api_tasks.world r))) = Some P) →
  value (api_tasks.check_project_access pid uid) r
  = value (check_project_access pid uid) (api_tasks.world r).
Proof.
  intros Hh Hc. rewrite (check_project_access_healthy _ _ _ Hh).
  pose proof (Hh (ProjectGet pid)) as Hf1.
  pose proof (Hh (ProjectMemberFirst pid uid None)) as Hf2.
  arun. destruct (api_tasks.session_projects r !! pid) as [P|] eqn:Hs; simpl.
  - rewrite (Hc P eq_refl). destruct (p_owner_id P =? uid); simpl; [done|].
    rewrite Hf2. simpl. by destruct (find _ (project_members _)).
  - rewrite Hf1. simpl.
    destruct (find _ (projects _)) as [P|]; simpl; [|done].
    destruct (p_owner_id P =? uid); simpl; [done|].
    rewrite Hf2. simpl. by destruct (find _ (project_members _)).
Qed.

(** An owner whose project the session holds is admitted without a query. *)
Lemma api_check_project_access_owner_cached
    (r : api_tasks.Request) (pid uid : Z) (P : Project) :
  api_tasks.session_projects r !! pid = Some P → p_owner_id P = uid →
  api_tasks.check_project_access pid uid r
  = (Returned (true, Some P, Some "owner"), r).
Proof.
  intros Hs Ho. apply Z.eqb_eq in Ho. arun. rewrite Hs. simpl. by rewrite Ho.
Qed.

(** X15.  The task check of the route module, [api/tasks.py], inside a request.
    It never raises; when its joined load of the task raises it denies.
    When that load finds the task it hands the task out whatever the flag,
    and the project loaded with the task serves the nested
    [check_project_access] from the session: the owner of the project is
    admitted without a further query (so also when the project lookup of
    [services/permissions.py] would raise).  On a store without faults,
    the session holding rows of the store, flag and role are those of
    [services.permissions.check_task_access], the task being handed out
    whenever it exists. *)
Theorem api_check_task_access_agrees
    (r : api_tasks.Request) (task_id user_id : Z) :
  let check := api_tasks.check_task_access task_id user_id in
  (∃ res, value check r = Returned res)
  ∧ (∀ e, api_tasks.session_tasks r !! task_id = None →
          api_tasks.joined_fault r task_id = Some e →
          value check r = Returned (false, None, None))
  ∧ (∀ T, api_tasks.session_tasks r !! task_id = None →
          api_tasks.joined_fault r task_id = None →
          find (λ t, t_id t =? task_id) (tasks (db (api_tasks.world r))) = Some T →
          (∃ allowed role, value check r = Returned (allowed, Some T, role))
          ∧ ∀ P, api_tasks.session_projects r !! t_project_id T = None →
                 find (λ p, p_id p =? t_project_id T)
                      (projects (db (api_tasks.world r))) = Some P →
                 p_owner_id P = user_id →
                 value check r = Returned (true, Some T, Some "owner")
                 ∧ api_tasks.world (world_after check r) = api_tasks.world r)
  ∧ (healthy (db (api_tasks.world r)) →
     api_tasks.joined_fault r task_id = None →
     api_tasks.session_consistent r →
     ∃ allowed task role,
       value (check_task_access task_id user_id) (api_tasks.world r)
         = Returned (allowed, task, role)
       ∧ value check r
         = Returned (allowed,
                     find (λ t, t_id t =? task_id)
                          (tasks (db (api_tasks.world r))),
                     role)).
Proof.
  intros check. subst check. split; [|split; [|split]].
  - unfold api_tasks.check_task_access, try_except, value, mbind, M_bind.
    destruct (api_tasks.Task_query_options_joinedload_project_get task_id r)
      as [[[T|]|e] r1]; simpl; [| by eexists | by eexists].
    destruct (api_check_project_access_returns r1 (t_project_id T) user_id)
      as [[[a P] ro] Hres].
    unfold value in Hres.
    destruct (api_tasks.check_project_access (t_project_id T) user_id r1)
      as [o r2]. simpl in Hres. subst o. simpl. by eexists.
  - intros e Hs Hf.
    unfold api_tasks.check_task_access,
      api_tasks.Task_query_options_joinedload_project_get,
      try_except, value, mbind, M_bind.
    by rewrite Hs, Hf.
  - intros T Hs Hf HT.
    unfold api_tasks.check_task_access,
      api_tasks.Task_query_options_joinedload_project_get,
      try_except, value, world_after, mbind, M_bind.
    rewrite Hs, Hf, HT. split.
    + match goal with
      | |- context [api_tasks.check_project_access ?p ?u ?r1] =>
          destruct (api_check_project_access_returns r1 p u) as [[[a P] ro] Hres];
          unfold value in Hres;
          destruct (api_tasks.check_project_access p u r1) as [o r2]
      end.
      simpl in Hres. subst o. simpl. by eexists _, _.
    + intros P HsP HP Ho.
      apply find_some_elem in HP as HP'. destruct HP' as [_ Hid].
      apply Z.eqb_eq in Hid.
      rewrite HP.
      rewrite (api_check_project_access_owner_cached _ _ _ P); [done| |done].
      unfold api_tasks.remember_project, api_tasks.remember_task,
        api_tasks.joined_load_issued. simpl.
      rewrite Hid, HsP. apply lookup_insert_eq.
  - intros Hh Hf [Hct Hcp].
    pose proof (Hh (TaskGet task_id)) as Hft.
    assert (Hperm : value (check_task_access task_id user_id) (api_tasks.world r)
                    = match find (λ t, t_id t =? task_id)
                                 (tasks (db (api_tasks.world r))) with
                      | None => Returned (false, None, None)
                      | Some T =>
                          match value (check_project_access (t_project_id T) user_id)
                                      (api_tasks.world r) with
                          | Returned (true, _, role) => Returned (true, Some T, role)
                          | _ => Returned (false, None, None)
                          end
                      end).
    { destruct (find (λ t, t_id t =? task_id) (tasks _)) as [T|] eqn:HT;
        [|unfold check_task_access, try_except, Task_query_get, run_query, value,
            mbind, M_bind; by rewrite Hft, HT].
      pose proof (check_project_access_value_db
                    (record (Queried (TaskGet task_id)) (api_tasks.world r))
                    (api_tasks.world r) (t_project_id T) user_id eq_refl) as Hdb.
      rewrite (check_project_access_healthy _ _ _ Hh) in Hdb.
      rewrite (check_project_access_healthy _ _ _ Hh).
      unfold check_task_access, try_except, Task_query_get, run_query, value,
        mbind, M_bind in *. rewrite Hft, HT.
      destruct (check_project_access (t_project_id T) user_id
                  (record (Queried (TaskGet task_id)) (api_tasks.world r)))
        as [o w2].
      simpl in Hdb. subst o. unfold mret, M_ret.
      repeat (case_match; simpl in *; simplify_eq); done. }
    assert (Hapi : value (api_tasks.check_task_access task_id user_id) r
                   = match find (λ t, t_id t =? task_id)
                                (tasks (db (api_tasks.world r))) with
                     | None => Returned (false, None, None)
                     | Some T =>
                         match value (check_project_access (t_project_id T) user_id)
                                     (api_tasks.world r) with
                         | Returned (a, _, role) => Returned (a, Some T, role)
                         | Raised e => Returned (false, None, None)
                         end
                     end).
    { unfold api_tasks.check_task_access,
        api_tasks.Task_query_options_joinedload_project_get,
        try_except, value, mbind, M_bind.
      destruct (api_tasks.session_tasks r !! task_id) as [T|] eqn:Hs.
      - rewrite (Hct _ _ Hs).
        pose proof (api_check_project_access_healthy
                      r (t_project_id T) user_id Hh (Hcp _)) as Hv.
        unfold value in Hv. rewrite <- Hv.
        destruct (api_check_project_access_returns r (t_project_id T) user_id)
          as [[[a P] ro] Hres].
        unfold value in Hres.
        destruct (api_tasks.check_project_access (t_project_id T) user_id r)
          as [o r2]. simpl in *. subst o. by rewrite Hres.
      - rewrite Hf. destruct (find _ (tasks _)) as [T|]; [|done].
        match goal with
        | |- context [api_tasks.check_project_access ?p ?u ?r1] =>
            set (r1' := r1)
        end.
        assert (Hw : api_tasks.world r1' = api_tasks.world r).
        { subst r1'. unfold api_tasks.remember_project.
          by destruct (find _ (projects _)). }
        assert (Hc1 : ∀ P, api_tasks.session_projects r1' !! t_project_id T = Some P →
                           find (λ p, p_id p =? t_project_id T)
                                (projects (db (api_tasks.world r1'))) = Some P).
        { rewrite Hw. subst r1'. unfold api_tasks.remember_project.
          destruct (find (λ p, p_id p =? t_project_id T) (projects _))
            as [P0|] eqn:HP0; simpl.
          - apply find_some_elem in HP0 as HP0'. destruct HP0' as [_ Hid].
            apply Z.eqb_eq in Hid.
            destruct (api_tasks.session_projects r !! p_id P0) as [P1|] eqn:Hs1.
            + intros P HP. rewrite <- (Hcp _ _ HP). done.
            + intros P. rewrite Hid, lookup_insert_eq. by intros [= <-].
          - intros P HP. rewrite <- HP0. by apply Hcp. }
        pose proof (Hh : healthy (db (api_tasks.world r))) as Hh1.
        rewrite <- Hw in Hh1.
        pose proof (api_check_project_access_healthy
                      r1' (t_project_id T) user_id Hh1 Hc1) as Hv.
        rewrite Hw in Hv. unfold value in Hv. rewrite <- Hv.
        destruct (api_check_project_access_returns r1' (t_project_id T) user_id)
          as [[[a P] ro] Hres].
        unfold value in Hres.
        destruct (api_tasks.check_project_access (t_project_id T) user_id r1')
          as [o r2]. simpl in *. subst o. by rewrite Hres. }
    rewrite Hperm, Hapi.
    destruct (find _ (tasks _)) as [T|]; [|by eexists _, _, _].
    pose proof (check_project_access_healthy
                  (api_tasks.world r) (t_project_id T) user_id Hh) as Hv.
    rewrite Hv.
    repeat case_match; simplify_eq; by eexists _, _, _.
Qed.

End api_tasks_facts.

Section api_tasks_examples.
Import permissions more_samples.

(** On [outsider_request] the project table answers inside the joined load
    only: the route check admits user 1, the owner of project 7, where
    [services.permissions.check_task_access] denies.  On
    [join_down_request] the joined load raises and the route check denies.
    On [demo_request] user 5, who has no access, is refused by both, the
    route check handing out task 42 all the same. *)
Lemma api_check_task_access_agrees_witness :
  (api_tasks.session_tasks outsider_request !! 42 = None
   ∧ api_tasks.joined_fault outsider_request 42 = None
   ∧ fault (db (api_tasks.world outsider_request)) (ProjectGet 7)
     = Some "OperationalError"
   ∧ value (api_tasks.check_task_access 42 1) outsider_request
     = Returned (true, Some outsider_task, Some "owner")
   ∧ value (check_task_access 42 1) (api_tasks.world outsider_request)
     = Returned (false, None, None))
  ∧ (api_tasks.joined_fault join_down_request 42 = Some "OperationalError"
     ∧ value (api_tasks.check_task_access 42 2) join_down_request
       = Returned (false, None, None))
  ∧ (healthy (db (api_tasks.world demo_request))
     ∧ api_tasks.session_consistent demo_request
     ∧ value (check_task_access 42 5) (api_tasks.world demo_request)
       = Returned (false, None, None)
     ∧ value (api_tasks.check_task_access 42 5) demo_request
       = Returned (false, Some task42, None)).
Proof.
  split; [|split].
  - pose proof (api_check_task_access_agrees outsider_request 42 1) as Hx.
    cbv zeta in Hx. destruct Hx as (_ & _ & Hfound & _).
    destruct (Hfound outsider_task eq_refl eq_refl eq_refl) as [_ Howner].
    destruct (Howner project7 eq_refl eq_refl eq_refl) as [Hv _].
    split; [reflexivity|]. split; [reflexivity|]. split; [reflexivity|].
    split; [exact Hv | reflexivity].
  - pose proof (api_check_task_access_agrees join_down_request 42 2) as Hx.
    cbv zeta in Hx. destruct Hx as (_ & Hdown & _).
    split; [reflexivity|].
    exact (Hdown "OperationalError" eq_refl eq_refl).
  - assert (Hh : healthy (db (api_tasks.world demo_request)))
      by (intros q; reflexivity).
    assert (Hc : api_tasks.session_consistent demo_request).
    { split; intros k x Hk; simpl in Hk; by rewrite lookup_empty in Hk. }
    pose proof (api_check_task_access_agrees demo_request 42 5) as Hx.
    cbv zeta in Hx. destruct Hx as (_ & _ & _ & Hagree).
    destruct (Hagree Hh eq_refl Hc) as (a & t & ro & Hp & Ha).
    assert (Hperm : value (check_task_access 42 5) (api_tasks.world demo_request)
                    = Returned (false, None, None)) by reflexivity.
    rewrite Hperm in Hp. injection Hp as <- <- <-.
    split; [exact Hh|]. split; [exact Hc|]. split; [exact Hperm | exact Ha].
Defined.

End api_tasks_examples.

(** ** Part VII.  Properties of the service layer *)

Section services_read.
Import permissions services.

Ltac srun :=
  unfold query_raised, emitted, value, world_after,
    check_admin_access, can_modify, can_delete, check_access, check_admin,
    check_member, check_project_member,
    check_project_access, check_project_admin, try_except,
    Project_query_get, ProjectMember_query_filter_by_first, Task_query_get,
    run_query, logger_error, record, mbind, M_bind, mret, M_ret, deny3 in *;
  simpl in *.

Ltac scases := repeat (case_match; simpl in *; simplify_eq).

Ltac split_queries :=
  repeat match goal with
         | H : _ ∈ _ :: _ |- _ => apply elem_of_cons in H as [?|H]
         | H : _ ∈ [] |- _ => by apply elem_of_nil in H
         end.

Ltac raised_iff :=
  simpl; rewrite <- ?app_assoc, drop_app_length; simpl;
  split;
  [ intros (qx & ex & Hin & Hq);
    first [ by eexists
          | by (exfalso; split_queries; simpl in *; simplify_eq; congruence) ]
  | intros [ex Hex];
    first [ discriminate
          | (eexists _, _; split; [|eassumption]; rewrite !elem_of_cons; eauto 6) ] ].

(** X17.  [ProjectPermissionService.check_access] has no [try]: it raises exactly
    when one of the queries it issues raises.  On a store without faults
    it returns the flag and the role that [check_project_access] returns. *)
Theorem service_check_access_propagates (w : World) (project_id user_id : Z) :
  (query_raised (check_access project_id user_id) w
   ↔ ∃ e, value (check_access project_id user_id) w = Raised e)
  ∧ (healthy (db w) →
     ∃ allowed P role,
       value (check_project_access project_id user_id) w
         = Returned (allowed, P, role)
       ∧ value (check_access project_id user_id) w = Returned (allowed, role)).
Proof.
  split.
  - srun. scases; raised_iff.
  - intros Hh.
    pose proof (Hh (ProjectGet project_id)) as Hf1.
    pose proof (Hh (ProjectMemberFirst project_id user_id None)) as Hf2.
    srun. rewrite Hf1. simpl.
    destruct (find _ (projects _)) as [P|]; simpl; [|by eexists _, _, _].
    destruct (p_owner_id P =? user_id); simpl; [by eexists _, _, _|].
    rewrite Hf2. simpl.
    destruct (find _ (project_members _)); simpl; by eexists _, _, _.
Qed.

(** X18.  [PermissionMixin.check_admin] likewise: it raises exactly when a query
    of [check_project_admin] raises, and when it returns, it returns what
    [check_project_admin] returns. *)
Theorem mixin_check_admin_propagates (w : World) (project_id user_id : Z) :
  (query_raised (check_project_admin project_id user_id) w
   ↔ ∃ e, value (check_admin project_id user_id) w = Raised e)
  ∧ (∀ b, value (check_admin project_id user_id) w = Returned b →
          value (check_project_admin project_id user_id) w = Returned b).
Proof.
  split.
  - srun. scases; raised_iff.
  - intros b. srun. scases; intros [=]; subst; done.
Qed.

Lemma check_admin_access_healthy (w : World) (pid uid : Z) :
  healthy (db w) →
  value (check_admin_access pid uid) w =
  Returned
    match find (λ p, p_id p =? pid) (projects (db w)) with
    | None => false
    | Some P =>
        (p_owner_id P =? uid)
        || match find (λ m, (m_project_id m =? pid) && (m_user_id m =? uid)
                            && role_filter None m) (project_members (db w)) with
           | Some r => bool_decide (Some (m_role r) ∈ [Some "owner"; Some "admin"])
           | None => false
           end
    end.
Proof.
  intros Hh. srun. rewrite !Hh. simpl.
  destruct (find _ (projects (db w))) as [P|]; simpl; [|done].
  destruct (p_owner_id P =? uid); simpl.
  - reflexivity.
  - rewrite Hh. simpl. by destruct (find _ (project_members (db w))).
Qed.

(** X19.  On a store without faults that satisfies the schema's constraints and
    whose membership roles are "admin" or "member",
    [ProjectPermissionService.check_admin_access] (which looks at the role
    [check_access] returns) and [check_project_admin] (which queries for an
    "admin" row) give the same answer. *)
Theorem check_admin_access_agrees (w : World) (project_id user_id : Z) :
  healthy (db w) → integrity (db w) → roles_valid (db w) →
  value (check_admin_access project_id user_id) w
  = value (check_project_admin project_id user_id) w.
Proof.
  intros Hh (Hpk & _ & Huniq) Hroles.
  rewrite (check_admin_access_healthy _ _ _ Hh),
          (check_project_admin_healthy _ _ _ Hh).
  destruct (find _ (projects (db w))) as [P|]; [|done].
  destruct (p_owner_id P =? user_id); cbn [orb]; [done|]. f_equal.
  destruct (find (λ m, (m_project_id m =? project_id) && (m_user_id m =? user_id)
                       && role_filter None m) (project_members (db w)))
    as [r|] eqn:Hf.
  - apply find_some_elem in Hf as [Hin Hpred].
    apply member_pred_true in Hpred as (Hp & Hu & _).
    destruct (Hroles r Hin) as [Hr|Hr].
    + rewrite bool_decide_eq_true_2 by (rewrite Hr; set_solver).
      symmetry. apply bool_decide_eq_true. apply find_admin_row_iff.
      exists r. by repeat split.
    + rewrite bool_decide_eq_false_2.
      2: { rewrite Hr. intros Hx.
           apply elem_of_cons in Hx as [Hx|Hx]; [discriminate|].
           apply elem_of_cons in Hx as [Hx|Hx]; [discriminate|].
           by apply elem_of_nil in Hx. }
      symmetry. apply bool_decide_eq_false. intros Hx.
      apply find_admin_row_iff in Hx as (r' & (Hin' & Hp' & Hu') & Hr').
      assert (r' = r) as -> by (apply Huniq; congruence).
      rewrite Hr in Hr'. discriminate.
  - symmetry. apply bool_decide_eq_false. intros Hx.
    apply find_admin_row_iff in Hx as (r' & (Hin' & Hp' & Hu') & Hr').
    rewrite find_none_elem in Hf. specialize (Hf r' Hin').
    assert (Ht : (m_project_id r' =? project_id) && (m_user_id r' =? user_id)
                 && role_filter None r' = true)
      by (apply member_pred_true; done).
    congruence.
Qed.

(** X20.  The two admin checks part on a membership row whose role is the string
    "owner" (nothing in [add_member] forbids it): for a user who is not the
    project's owner, [check_admin_access] answers True, [check_project_admin]
    and [PermissionMixin.check_admin] answer False. *)
Theorem owner_role_row_splits_admin_checks
    (w : World) (project_id user_id : Z) (P : Project) (r : ProjectMember) :
  healthy (db w) → integrity (db w) →
  P ∈ projects (db w) → p_id P = project_id → p_owner_id P ≠ user_id →
  member_row (db w) project_id user_id r → m_role r = "owner" →
  value (check_admin_access project_id user_id) w = Returned true
  ∧ value (check_project_admin project_id user_id) w = Returned false
  ∧ value (check_admin project_id user_id) w = Returned false.
Proof.
  intros Hh (Hpk & _ & Huniq) HP Hid Ho Hr Hrole.
  pose proof (find_by_key_unique p_id project_id _ P Hpk HP Hid) as Hfind.
  apply Z.eqb_neq in Ho.
  assert (Hnoadmin :
    find (λ m, (m_project_id m =? project_id) && (m_user_id m =? user_id)
               && role_filter (Some "admin") m) (project_members (db w)) = None).
  { destruct (find _ (project_members (db w))) as [r'|] eqn:Hf; [|done].
    exfalso. apply find_some_elem in Hf as [Hin' Hpred].
    apply member_pred_true in Hpred as (Hp' & Hu' & Hr').
    destruct Hr as (Hin & Hp & Hu).
    assert (r' = r) as Heq by (apply Huniq; congruence).
    rewrite Heq in Hr'. congruence. }
  pose proof (find_member_unique _ _ _ r Huniq Hr) as Hfr.
  split; [|split].
  - rewrite (check_admin_access_healthy _ _ _ Hh), Hfind, Ho, Hfr. simpl.
    f_equal. apply bool_decide_eq_true. rewrite Hrole. set_solver.
  - rewrite (check_project_admin_healthy _ _ _ Hh), Hfind, Ho, Hnoadmin. done.
  - srun. rewrite !Hh. simpl. rewrite Hfind. simpl. rewrite Ho. simpl.
    rewrite Hh. simpl. by rewrite Hnoadmin.
Qed.

(** X21.  [can_delete] is true for the project's owner only; when no project has
    the id it returns None (falsy), not False; and whoever may delete also
    passes [check_admin_access]. *)
Theorem can_delete_owner_only (w : World) (project_id user_id : Z) :
  fault (db w) (ProjectGet project_id) = None →
  NoDup (p_id <$> projects (db w)) →
  ∃ v, value (can_delete project_id user_id) w = Returned v
       ∧ (truthy v = true
          ↔ ∃ P, P ∈ projects (db w) ∧ p_id P = project_id
                 ∧ p_owner_id P = user_id)
       ∧ ((∀ P, P ∈ projects (db w) → p_id P ≠ project_id) → v = None)
       ∧ (truthy v = true →
          value (check_admin_access project_id user_id) w = Returned true).
Proof.
  intros Hf Hpk. srun. rewrite Hf. simpl.
  eexists. split; [reflexivity|].
  destruct (find (λ p, p_id p =? project_id) (projects (db w))) as [P|] eqn:Hfind;
    simpl.
  - apply find_some_elem in Hfind as [HP Hid]. apply Z.eqb_eq in Hid.
    split; [|split].
    + split.
      * intros Ho. apply Z.eqb_eq in Ho. by exists P.
      * intros (P' & HP' & Hid' & Ho').
        pose proof (find_by_key_unique p_id project_id _ P Hpk HP Hid) as E1.
        pose proof (find_by_key_unique p_id project_id _ P' Hpk HP' Hid') as E2.
        assert (P' = P) as -> by congruence. by apply Z.eqb_eq.
    + intros Hno. exfalso. by apply (Hno P).
    + intros Ho. by rewrite Ho.
  - split; [|split]; [|done|done].
    split; [done|]. intros (P' & HP' & Hid' & _).
    pose proof (proj1 (find_by_key_None p_id project_id _) Hfind) as Hnone.
    exfalso. by apply (Hnone P').
Qed.

(** X22.  [PermissionMixin.check_member] looks at the membership table only: for
    an owner without a membership row it answers False, where
    [check_project_member] answers True. *)
Theorem mixin_check_member_ignores_owner
    (w : World) (project_id user_id : Z) (P : Project) :
  healthy (db w) → NoDup (p_id <$> projects (db w)) →
  P ∈ projects (db w) → p_id P = project_id → p_owner_id P = user_id →
  (∀ r, ¬ member_row (db w) project_id user_id r) →
  value (check_member project_id user_id) w = Returned false
  ∧ value (check_project_member project_id user_id) w = Returned true.
Proof.
  intros Hh Hpk HP Hid Ho Hno.
  pose proof (find_by_key_unique p_id project_id _ P Hpk HP Hid) as Hfind.
  pose proof (find_member_absent _ _ _ None Hno) as Habs.
  apply Z.eqb_eq in Ho.
  split.
  - srun. rewrite Hh. simpl. rewrite Habs. done.
  - srun. rewrite Hh. simpl. rewrite Hfind. simpl. by rewrite Ho.
Qed.

End services_read.

(** ** Part VIII.  Properties of the writing service methods *)

Section services_write.
Import permissions services.

Ltac wrun :=
  unfold delete_project, add_member, remove_member, delete_task,
    lift, with_app, session_do, commit, _log_info, raise_attribute_error,
    User_query_filter_by_email_first,
    value, world_after,
    check_admin_access, can_modify, can_delete, check_access,
    Project_query_get, ProjectMember_query_filter_by_first, Task_query_get,
    run_query, record, mbind, M_bind, mret, M_ret in *;
  simpl in *.

Ltac wcases := repeat (case_match; simpl in *; simplify_eq).

Lemma find_filter_keep {A} (f : A → bool) (P : A → Prop) `{∀ x, Decision (P x)}
    (l : list A) :
  (∀ x, x ∈ l → f x = true → P x) → find f (filter P l) = find f l.
Proof.
  induction l as [|a l IH]; intros Hkeep; [done|].
  rewrite filter_cons. destruct (decide (P a)) as [HP|HP]; simpl.
  - destruct (f a); [done|]. apply IH. intros x Hx. apply Hkeep. by right.
  - destruct (f a) eqn:Hfa.
    + exfalso. apply HP. apply Hkeep; [by left | done].
    + apply IH. intros x Hx. apply Hkeep. by right.
Qed.

Lemma find_filter_none {A} (f : A → bool) (P : A → Prop) `{∀ x, Decision (P x)}
    (l : list A) :
  (∀ x, x ∈ l → f x = true → ¬ P x) → find f (filter P l) = None.
Proof.
  intros Hdrop. apply find_none_elem. intros x Hx.
  apply list_elem_of_filter in Hx as [HP Hx].
  destruct (f x) eqn:Hfx; [|done]. exfalso. by apply (Hdrop x).
Qed.

Lemma key_injective {A} (key : A → Z) (l : list A) (x y : A) :
  NoDup (key <$> l) → x ∈ l → y ∈ l → key x = key y → x = y.
Proof.
  induction l as [|a l IH]; intros Hnd Hx Hy Hk; [by apply elem_of_nil in Hx|].
  apply NoDup_cons in Hnd as [Hnotin Hnd].
  apply elem_of_cons in Hx as [->|Hx]; apply elem_of_cons in Hy as [->|Hy].
  - done.
  - exfalso. apply Hnotin. rewrite Hk. by apply list_elem_of_fmap_2.
  - exfalso. apply Hnotin. rewrite <- Hk. by apply list_elem_of_fmap_2.
  - by apply IH.
Qed.

Lemma delete_project_by_owner (s : SWorld) (pid uid : Z) (P : Project) :
  sound s → NoDup (p_id <$> projects (db (app s))) →
  P ∈ projects (db (app s)) → p_id P = pid → p_owner_id P = uid →
  value (delete_project pid uid) s = Returned (ok true)
  ∧ db (app (world_after (delete_project pid uid) s))
    = apply_op (db (app s)) (SessionDeleteProject P).
Proof.
  intros (Hh & _ & Hc & Hs) Hpk HP Hid Ho.
  pose proof (find_by_key_unique p_id pid _ P Hpk HP Hid) as Hfind.
  apply Z.eqb_eq in Ho.
  wrun. rewrite Hh. simpl. rewrite Hfind. simpl. rewrite Ho. simpl.
  rewrite Hh. simpl. rewrite Hfind. simpl. rewrite Hc, Hs. simpl. done.
Qed.

(** X23.  [ProjectService.delete_project]: only the project's owner deletes it.
    For anyone else, and also when no project has the id, the answer is
    FORBIDDEN (the NOT_FOUND branch is never reached) and the tables stay as
    they were. *)
Theorem delete_project_owner_only (s : SWorld) (project_id user_id : Z) :
  sound s → NoDup (p_id <$> projects (db (app s))) →
  (∀ P, P ∈ projects (db (app s)) → p_id P = project_id →
        p_owner_id P = user_id →
        value (delete_project project_id user_id) s = Returned (ok true)
        ∧ db (app (world_after (delete_project project_id user_id) s))
          = apply_op (db (app s)) (SessionDeleteProject P))
  ∧ ((¬ ∃ P, P ∈ projects (db (app s)) ∧ p_id P = project_id
             ∧ p_owner_id P = user_id) →
     value (delete_project project_id user_id) s
       = Returned (forbidden "Only the project owner can delete the project")
     ∧ db (app (world_after (delete_project project_id user_id) s))
       = db (app s)).
Proof.
  intros Hsound Hpk. split.
  - intros P HP Hid Ho. by apply delete_project_by_owner.
  - destruct Hsound as (Hh & _ & Hc & Hs).
    intros Hno. wrun. rewrite Hh. simpl.
    destruct (find (λ p, p_id p =? project_id) (projects (db (app s))))
      as [P|] eqn:Hfind; simpl; [|done].
    destruct (Z.eqb_spec (p_owner_id P) user_id) as [Ho|Ho]; simpl; [|done].
    exfalso. apply Hno. apply find_some_elem in Hfind as [HP Hid].
    apply Z.eqb_eq in Hid. by exists P.
Qed.

(** X24.  A successful [delete_project] takes the project's tasks and membership
    rows along and leaves every row of the other projects in place;
    afterwards [check_project_access] refuses everybody on that project. *)
Theorem delete_project_cascades
    (s : SWorld) (project_id user_id : Z) (P : Project) :
  sound s → NoDup (p_id <$> projects (db (app s))) →
  P ∈ projects (db (app s)) → p_id P = project_id → p_owner_id P = user_id →
  let s' := world_after (delete_project project_id user_id) s in
  (∀ u, value (check_project_access project_id u) (app s')
        = Returned (false, None, None))
  ∧ (∀ Q, Q ∈ projects (db (app s'))
          ↔ Q ∈ projects (db (app s)) ∧ p_id Q ≠ project_id)
  ∧ (∀ T, T ∈ tasks (db (app s'))
          ↔ T ∈ tasks (db (app s)) ∧ t_project_id T ≠ project_id)
  ∧ (∀ r, r ∈ project_members (db (app s'))
          ↔ r ∈ project_members (db (app s)) ∧ m_project_id r ≠ project_id).
Proof.
  intros Hsound Hpk HP Hid Ho s'.
  destruct (delete_project_by_owner s project_id user_id P Hsound Hpk HP Hid Ho)
    as [_ Hdb].
  fold s' in Hdb. destruct Hsound as (Hh & _).
  assert (Hh' : healthy (db (app s'))).
  { intros q. rewrite Hdb. simpl. apply Hh. }
  split; [|split; [|split]].
  - intros u. rewrite (check_project_access_healthy _ _ _ Hh'), Hdb. simpl.
    rewrite find_filter_none; [done|].
    intros x _ Hx Hne. apply Z.eqb_eq in Hx. congruence.
  - intros Q. rewrite Hdb. simpl. rewrite list_elem_of_filter, Hid. tauto.
  - intros T. rewrite Hdb. simpl. rewrite list_elem_of_filter, Hid. tauto.
  - intros r. rewrite Hdb. simpl. rewrite list_elem_of_filter, Hid. tauto.
Qed.

Lemma check_admin_access_run (w : World) (pid uid : Z) :
  healthy (db w) →
  ∃ w', check_admin_access pid uid w
        = (value (check_admin_access pid uid) w, w')
        ∧ db w' = db w
        ∧ ∃ b, value (check_admin_access pid uid) w = Returned b.
Proof.
  intros Hh. wrun. rewrite Hh. simpl.
  destruct (find _ (projects (db w))) as [P|]; simpl; [|eexists; eauto].
  destruct (p_owner_id P =? uid); simpl; [eexists; eauto|].
  rewrite Hh. simpl.
  destruct (find _ (project_members (db w))); simpl; eexists; eauto.
Qed.

Lemma remove_member_run (s : SWorld) (pid uid mid : Z) (b : bool) :
  sound s →
  value (check_admin_access pid uid) (app s) = Returned b →
  ∃ w', db w' = db (app s) ∧
  remove_member pid uid mid s
  = if negb b then (Returned (forbidden "Only admins can remove members"),
                    with_app w' s)
    else
      match find (λ p, p_id p =? pid) (projects (db (app s))) with
      | None => (Raised "'NoneType' object has no attribute 'owner_id'",
                 with_app (record (Queried (ProjectGet pid)) w') s)
      | Some P =>
          if p_owner_id P =? mid
          then (Returned (fail VALIDATION_ERROR "Cannot remove the project owner"),
                with_app (record (Queried (ProjectGet pid)) w') s)
          else
            let w'' := record (Queried (ProjectMemberFirst pid mid None))
                         (record (Queried (ProjectGet pid)) w') in
            match find (λ m, (m_project_id m =? pid) && (m_user_id m =? mid)
                             && role_filter None m)
                       (project_members (db (app s))) with
            | None => (Returned (not_found "Member"), with_app w'' s)
            | Some r =>
                (Returned (ok true),
                 with_app {| db := apply_op (db (app s)) (SessionDeleteMember r);
                             events := events w'' |} s)
            end
      end.
Proof.
  intros (Hh & _ & Hc & Hs) Hb.
  destruct (check_admin_access_run (app s) pid uid Hh) as (w' & Hrun & Hdb & _).
  exists w'. split; [done|].
  unfold remove_member, lift, Project_query_get,
    ProjectMember_query_filter_by_first, run_query, mret, M_ret, mbind, M_bind,
    raise_attribute_error, session_do, commit, with_app.
  rewrite Hrun, Hb. simpl.
  destruct b; simpl; [|done].
  rewrite Hdb, Hh. simpl.
  destruct (find _ (projects (db (app s)))) as [P|]; simpl; [|done].
  destruct (p_owner_id P =? mid); simpl; [done|].
  rewrite Hdb, Hh. simpl.
  destruct (find _ (project_members (db (app s)))) as [r|]; simpl; [|done].
  rewrite Hc, Hs. simpl. by rewrite Hdb.
Qed.

(** X25.  [ProjectService.remove_member] refuses, leaving the tables as they
    were: a caller who fails [check_admin_access] gets FORBIDDEN; the
    project's owner cannot be removed (VALIDATION_ERROR); a user without a
    membership row gives NOT_FOUND. *)
Theorem remove_member_refusals (s : SWorld) (project_id user_id member_id : Z) :
  sound s → NoDup (p_id <$> projects (db (app s))) →
  let s' := world_after (remove_member project_id user_id member_id) s in
  (value (check_admin_access project_id user_id) (app s) = Returned false →
   value (remove_member project_id user_id member_id) s
     = Returned (forbidden "Only admins can remove members")
   ∧ db (app s') = db (app s))
  ∧ (value (check_admin_access project_id user_id) (app s) = Returned true →
     ∀ P, P ∈ projects (db (app s)) → p_id P = project_id →
       (p_owner_id P = member_id →
        value (remove_member project_id user_id member_id) s
          = Returned (fail VALIDATION_ERROR "Cannot remove the project owner")
        ∧ db (app s') = db (app s))
       ∧ (p_owner_id P ≠ member_id →
          (∀ r, ¬ member_row (db (app s)) project_id member_id r) →
          value (remove_member project_id user_id member_id) s
            = Returned (not_found "Member")
          ∧ db (app s') = db (app s))).
Proof.
  intros Hsound Hpk s'. subst s'. split.
  - intros Hb.
    destruct (remove_member_run s project_id user_id member_id false Hsound Hb)
      as (w' & Hdb & Hrun).
    unfold value, world_after. rewrite Hrun. simpl. done.
  - intros Hb P HP Hid.
    destruct (remove_member_run s project_id user_id member_id true Hsound Hb)
      as (w' & Hdb & Hrun).
    rewrite (find_by_key_unique p_id project_id _ P Hpk HP Hid) in Hrun.
    clear Hb. split.
    + intros Ho. apply Z.eqb_eq in Ho. rewrite Ho in Hrun.
      unfold value, world_after. rewrite Hrun. simpl. done.
    + intros Ho Hno. apply Z.eqb_neq in Ho.
      rewrite Ho, (find_member_absent _ _ _ None Hno) in Hrun.
      unfold value, world_after. rewrite Hrun. simpl. done.
Qed.

(** X26.  A successful [remove_member] deletes the member's row and nothing else:
    [check_project_access] then refuses the removed user on that project,
    and answers as before for every other project and user. *)
Theorem remove_member_revokes_access
    (s : SWorld) (project_id user_id member_id : Z)
    (P : Project) (r : ProjectMember) :
  sound s → integrity (db (app s)) →
  NoDup (m_id <$> project_members (db (app s))) →
  value (check_admin_access project_id user_id) (app s) = Returned true →
  P ∈ projects (db (app s)) → p_id P = project_id → p_owner_id P ≠ member_id →
  member_row (db (app s)) project_id member_id r →
  let s' := world_after (remove_member project_id user_id member_id) s in
  value (remove_member project_id user_id member_id) s = Returned (ok true)
  ∧ project_members (db (app s'))
    = filter (λ x, m_id x ≠ m_id r) (project_members (db (app s)))
  ∧ value (check_project_access project_id member_id) (app s')
    = Returned (false, None, None)
  ∧ (∀ pid u, pid ≠ project_id ∨ u ≠ member_id →
       value (check_project_access pid u) (app s')
       = value (check_project_access pid u) (app s)).
Proof.
  intros Hsound (Hpk & _ & Huniq) Hmk Hb HP Hid Ho Hr s'.
  destruct (remove_member_run s project_id user_id member_id true Hsound Hb)
    as (w' & Hdb & Hrun).
  pose proof (find_by_key_unique p_id project_id _ P Hpk HP Hid) as Hfind.
  pose proof (find_member_unique _ _ _ r Huniq Hr) as Hfr.
  pose proof Ho as Ho'. apply Z.eqb_neq in Ho'.
  rewrite Hfind, Ho', Hfr in Hrun. simpl in Hrun.
  assert (Hv : value (remove_member project_id user_id member_id) s
               = Returned (ok true)) by (unfold value; by rewrite Hrun).
  assert (Hd : db (app s') = apply_op (db (app s)) (SessionDeleteMember r))
    by (subst s'; unfold world_after; by rewrite Hrun).
  destruct Hsound as (Hh & _).
  assert (Hh' : healthy (db (app s'))).
  { intros q. rewrite Hd. simpl. apply Hh. }
  destruct Hr as (Hin & Hrp & Hru).
  split; [exact Hv|]. split; [by rewrite Hd|]. split.
  - rewrite (check_project_access_healthy _ _ _ Hh'), Hd. simpl.
    rewrite Hfind, Ho'. rewrite find_filter_none; [done|].
    intros x Hx Hpred Hne. apply (member_pred_true _ _ None) in Hpred as (Hxp & Hxu & _).
    apply Hne. f_equal. apply Huniq; congruence.
  - intros pid u Hother.
    rewrite (check_project_access_healthy _ _ _ Hh'),
            (check_project_access_healthy _ _ _ Hh), Hd. simpl.
    rewrite find_filter_keep; [done|].
    intros x Hx Hpred Heq. apply (member_pred_true _ _ None) in Hpred as (Hxp & Hxu & _).
    assert (x = r) as -> by (by apply (key_injective m_id (project_members (db (app s))))).
    destruct Hother as [Hne|Hne]; congruence.
Qed.

Lemma add_member_db_cases
    (s : SWorld) (pid uid : Z) (email : string) (role : option string) :
  session s = [] →
  db (app (world_after (add_member pid uid email role) s)) = db (app s)
  ∨ ∃ new P,
      find (λ p, p_id p =? pid) (projects (db (app s))) = Some P
      ∧ p_owner_id P ≠ u_id new
      ∧ find (λ m, (m_project_id m =? pid) && (m_user_id m =? u_id new)
                   && role_filter None m) (project_members (db (app s))) = None
      ∧ db (app (world_after (add_member pid uid email role) s))
        = apply_op (db (app s))
            (SessionAddMember pid (u_id new) (default "member" role)).
Proof.
  intros Hs. wrun. rewrite Hs. wcases; try (by left).
  all: right;
    match goal with
    | Hu : find _ (users _) = Some ?u, Hp : find _ (projects _) = Some ?p |- _ =>
        exists u, p
    end;
    split; [reflexivity|]; (split; [by apply Z.eqb_neq|]);
    split; [assumption | reflexivity].
Qed.

Lemma find_app_none {A} (f : A → bool) (l l' : list A) :
  find f l = None → find f (l ++ l') = find f l'.
Proof.
  induction l as [|a l IH]; simpl; [done|].
  destruct (f a); [discriminate | exact IH].
Qed.

Lemma foldr_max_ge (l : list Z) (x : Z) : x ∈ l → x ≤ foldr Z.max 0 l.
Proof.
  induction l as [|a l IH]; intros Hx; [by apply elem_of_nil in Hx|].
  apply elem_of_cons in Hx as [->|Hx]; simpl; [lia|].
  specialize (IH Hx). lia.
Qed.

(** The key the database gives to a new membership row is not in use. *)
Lemma next_member_id_fresh (d : Datastore) :
  next_member_id d ∉ m_id <$> project_members d.
Proof.
  intros Hin. apply foldr_max_ge in Hin. unfold next_member_id in Hin. lia.
Qed.

(** X27.  [ProjectService.add_member] keeps the schema's constraints, the primary
    key [ProjectMember.id] of the table it writes to included, and the
    convention that a project's owner has no membership row, in every world
    with nothing pending in the session: it inserts at most one row, under
    a key not in use, never for a user who already has a row in the project
    and never for the project's owner. *)
Theorem add_member_keeps_invariants
    (s : SWorld) (project_id user_id : Z) (member_email : string)
    (role : option string) :
  session s = [] →
  integrity (db (app s)) →
  NoDup (m_id <$> project_members (db (app s))) →
  owner_not_member (db (app s)) →
  let s' := world_after (add_member project_id user_id member_email role) s in
  integrity (db (app s'))
  ∧ NoDup (m_id <$> project_members (db (app s')))
  ∧ owner_not_member (db (app s')).
Proof.
  intros Hs Hint Hmk Hown s'. subst s'.
  destruct (add_member_db_cases s project_id user_id member_email role Hs)
    as [->|(new & P & Hfind & Ho & Hnone & ->)]; [done|].
  assert (Hkeys : NoDup (m_id <$> project_members
                           (apply_op (db (app s))
                              (SessionAddMember project_id (u_id new)
                                                (default "member" role))))).
  { simpl. rewrite fmap_app. apply NoDup_app. split; [exact Hmk|]. split.
    - intros x Hx Hx'. simpl in Hx'. apply list_elem_of_singleton in Hx'.
      subst x. by apply (next_member_id_fresh (db (app s))).
    - apply NoDup_singleton. }
  cut (integrity (apply_op (db (app s))
                    (SessionAddMember project_id (u_id new) (default "member" role)))
       ∧ owner_not_member
           (apply_op (db (app s))
              (SessionAddMember project_id (u_id new) (default "member" role))));
    [tauto|].
  clear Hkeys Hmk.
  destruct Hint as (Hpk & Htk & Huniq).
  apply find_some_elem in Hfind as [HP Hid]. apply Z.eqb_eq in Hid.
  rewrite find_none_elem in Hnone.
  assert (Hfresh : ∀ r, r ∈ project_members (db (app s)) →
                        m_project_id r = project_id → m_user_id r = u_id new →
                        False).
  { intros r Hr Hp Hu. specialize (Hnone r Hr).
    assert (Ht : (m_project_id r =? project_id) && (m_user_id r =? u_id new)
                 && role_filter None r = true)
      by (apply member_pred_true; done).
    congruence. }
  split.
  - split; [exact Hpk|]. split; [exact Htk|].
    intros r r' Hr Hr' Hp Hu. simpl in Hr, Hr'.
    apply elem_of_app in Hr as [Hr|Hr]; apply elem_of_app in Hr' as [Hr'|Hr'].
    + by apply Huniq.
    + apply list_elem_of_singleton in Hr'. subst r'. simpl in *.
      exfalso. by apply (Hfresh r).
    + apply list_elem_of_singleton in Hr. subst r. simpl in *.
      exfalso. by apply (Hfresh r').
    + apply list_elem_of_singleton in Hr. apply list_elem_of_singleton in Hr'.
      congruence.
  - intros Q r HQ Hr Hp. simpl in HQ, Hr.
    apply elem_of_app in Hr as [Hr|Hr]; [by apply (Hown Q r)|].
    apply list_elem_of_singleton in Hr. subst r. simpl in *.
    assert (Q = P) as ->
      by (apply (key_injective p_id (projects (db (app s)))); congruence).
    congruence.
Qed.

Lemma add_member_ok_inv
    (s : SWorld) (pid uid : Z) (email : string) (role : option string)
    (dto : ProjectMemberDTO) :
  session s = [] →
  value (add_member pid uid email role) s = Returned (ok dto) →
  ∃ new P,
    find (λ u, bool_decide (u_email u = email)) (users s) = Some new
    ∧ find (λ p, p_id p =? pid) (projects (db (app s))) = Some P
    ∧ p_owner_id P ≠ u_id new
    ∧ find (λ m, (m_project_id m =? pid) && (m_user_id m =? u_id new)
                 && role_filter None m) (project_members (db (app s))) = None
    ∧ db (app (world_after (add_member pid uid email role) s))
      = apply_op (db (app s))
          (SessionAddMember pid (u_id new) (default "member" role))
    ∧ dto = {| dto_user_id := u_id new; dto_username := u_username new;
               dto_email := u_email new; dto_role := default "member" role;
               dto_is_owner := false; dto_avatar_url := u_avatar_url new |}.
Proof.
  intros Hs. wrun. rewrite Hs. wcases; intros Hv; try discriminate.
  all: injection Hv as <-.
  all: match goal with
       | Hu : find _ (users _) = Some ?u, Hp : find _ (projects _) = Some ?p |- _ =>
           exists u, p
       end;
       split; [reflexivity|]; split; [reflexivity|];
       (split; [by apply Z.eqb_neq|]); split; [assumption|];
       split; reflexivity.
Qed.

(** X28.  When [add_member] answers ok, the user with the given e-mail address
    has access from then on: [check_project_access] returns
    (True, project, role) for that user, with the role that was asked for
    ("member" when none was given) — whatever string it is. *)
Theorem add_member_grants_access
    (s : SWorld) (project_id user_id : Z) (member_email : string)
    (role : option string) (dto : ProjectMemberDTO) :
  sound s →
  value (add_member project_id user_id member_email role) s = Returned (ok dto) →
  let s' := world_after (add_member project_id user_id member_email role) s in
  dto_email dto = member_email
  ∧ dto_role dto = default "member" role
  ∧ ∃ P, P ∈ projects (db (app s)) ∧ p_id P = project_id
         ∧ value (check_project_access project_id (dto_user_id dto)) (app s')
           = Returned (true, Some P, Some (dto_role dto)).
Proof.
  intros (Hh & _ & _ & Hs) Hv s'.
  destruct (add_member_ok_inv s project_id user_id member_email role dto Hs Hv)
    as (new & P & Hu & Hfind & Ho & Hnone & Hdb & ->).
  fold s' in Hdb. simpl.
  apply find_some_elem in Hu as [_ Hmail]. apply bool_decide_eq_true in Hmail.
  split; [done|]. split; [done|].
  pose proof Hfind as Hfind'.
  apply find_some_elem in Hfind' as [HP Hid]. apply Z.eqb_eq in Hid.
  exists P. split; [done|]. split; [done|].
  assert (Hh' : healthy (db (app s'))).
  { intros q. rewrite Hdb. simpl. apply Hh. }
  rewrite (check_project_access_healthy _ _ _ Hh'), Hdb.
  cbn [apply_op projects project_members].
  rewrite Hfind. apply Z.eqb_neq in Ho. rewrite Ho.
  rewrite (find_app_none _ _ _ Hnone). simpl.
  by rewrite !Z.eqb_refl.
Qed.

Lemma check_access_run (w : World) (pid uid : Z) :
  healthy (db w) →
  ∃ w' v, check_access pid uid w = (Returned v, w') ∧ db w' = db w.
Proof.
  intros Hh. wrun. rewrite Hh. simpl.
  destruct (find _ (projects (db w))) as [P|]; simpl; [|eexists _, _; eauto].
  destruct (p_owner_id P =? uid); simpl; [eexists _, _; eauto|].
  rewrite Hh. simpl.
  destruct (find _ (project_members (db w))); simpl; eexists _, _; eauto.
Qed.

Lemma check_access_value_db (w w' : World) (pid uid : Z) :
  db w = db w' →
  value (check_access pid uid) w = value (check_access pid uid) w'.
Proof. intros Hdb. wrun. rewrite Hdb. wcases; done. Qed.

(** X29.  [TaskService.delete_task] asks for project access only: it deletes the
    task for every user [check_access] admits to the task's project (a plain
    member who neither created the task nor is its assignee included),
    answers FORBIDDEN to the others and NOT_FOUND when no task has the id;
    a refusal leaves the tables as they were. *)
Theorem service_delete_task (s : SWorld) (task_id user_id : Z) :
  sound s → NoDup (t_id <$> tasks (db (app s))) →
  let s' := world_after (delete_task task_id user_id) s in
  (∀ T role, T ∈ tasks (db (app s)) → t_id T = task_id →
     (value (check_access (t_project_id T) user_id) (app s)
        = Returned (true, role) →
      value (delete_task task_id user_id) s = Returned (ok true)
      ∧ db (app s') = apply_op (db (app s)) (SessionDeleteTask T)
      ∧ ∀ T', T' ∈ tasks (db (app s'))
              ↔ T' ∈ tasks (db (app s)) ∧ t_id T' ≠ task_id)
     ∧ (value (check_access (t_project_id T) user_id) (app s)
          = Returned (false, role) →
        value (delete_task task_id user_id) s
          = Returned (forbidden "You are not a member of this project")
        ∧ db (app s') = db (app s)))
  ∧ ((∀ T, T ∈ tasks (db (app s)) → t_id T ≠ task_id) →
     value (delete_task task_id user_id) s = Returned (not_found "Task")
     ∧ db (app s') = db (app s)).
Proof.
  intros (Hh & _ & Hc & Hs) Htk s'. subst s'. split.
  - intros T role HT Hid.
    pose proof (find_by_key_unique t_id task_id _ T Htk HT Hid) as Hfind.
    assert (Hh1 : healthy (db (record (Queried (TaskGet task_id)) (app s))))
      by exact Hh.
    destruct (check_access_run _ (t_project_id T) user_id Hh1)
      as (w' & v & Hrun & Hdb).
    assert (Hval : value (check_access (t_project_id T) user_id) (app s)
                   = Returned v).
    { rewrite (check_access_value_db (app s)
                 (record (Queried (TaskGet task_id)) (app s))) by done.
      unfold value. by rewrite Hrun. }
    assert (Hstep : delete_task task_id user_id s
       = if negb v.1
         then (Returned (forbidden "You are not a member of this project"),
               with_app w' s)
         else (Returned (ok true),
               {| app := {| db := apply_op (db (app s)) (SessionDeleteTask T);
                            events := events w' |};
                  users := users s; user_fault := user_fault s;
                  session := []; commit_fault := commit_fault s;
                  title_of := title_of s;
                  info_log := info_log s
                              ++ ["Task deleted: " +:+ title_of s (t_id T)] |})).
    { unfold delete_task, lift, Task_query_get, run_query, mbind, M_bind,
        mret, M_ret, session_do, commit, _log_info, with_app.
      simpl. rewrite (Hh _), Hfind. simpl.
      rewrite Hrun. simpl.
      destruct v as [a r]. destruct a; simpl; [|done].
      rewrite Hc, Hs. simpl. by rewrite Hdb. }
    unfold value at 2 4, world_after. rewrite Hstep, Hval. split.
    + intros [= ->]. simpl. split; [done|]. split; [done|].
      intros T'. rewrite list_elem_of_filter, Hid. tauto.
    + intros [= ->]. simpl. done.
  - intros Hno. pose proof (proj2 (find_by_key_None t_id task_id _) Hno) as Hfind.
    wrun. rewrite (Hh _), Hfind. done.
Qed.

End services_write.

(** ** Part IX.  The scenarios, run through the properties above *)

Section more_examples.
Import permissions services more_samples.

Lemma demo_db_roles_valid : roles_valid demo_db.
Proof.
  intros r Hr. simpl in Hr.
  repeat (apply elem_of_cons in Hr as [->|Hr]; [simpl; auto|]).
  by apply elem_of_nil in Hr.
Qed.

Lemma demo_db_owner_not_member : owner_not_member demo_db.
Proof.
  intros P r HP Hr _. simpl in HP, Hr.
  apply list_elem_of_singleton in HP. subst P.
  repeat (apply elem_of_cons in Hr as [->|Hr]; [simpl; discriminate|]).
  by apply elem_of_nil in Hr.
Qed.

Lemma demo_db_member_keys : NoDup (m_id <$> project_members demo_db).
Proof. apply NoDup_ListNoDup. repeat constructor; simpl; intuition discriminate. Qed.

Lemma demo_world_sound : sound demo_world.
Proof. repeat split. Qed.

Lemma owner_role_db_integrity : integrity owner_role_db.
Proof.
  repeat split.
  - apply NoDup_singleton.
  - apply NoDup_singleton.
  - intros r r' Hr Hr' _ _. simpl in *.
    apply list_elem_of_singleton in Hr. apply list_elem_of_singleton in Hr'.
    congruence.
Qed.

Lemma project_admin_has_access_witness :
  healthy (db (fresh demo_db)) ∧ integrity (db (fresh demo_db))
  ∧ value (check_project_admin 7 3) (fresh demo_db) = Returned true
  ∧ ∃ P role,
      value (check_project_access 7 3) (fresh demo_db)
        = Returned (true, Some P, Some role)
      ∧ (role = "owner" ∨ role = "admin")
      ∧ value (check_project_member 7 3) (fresh demo_db) = Returned true.
Proof.
  split; [exact demo_db_healthy|]. split; [exact demo_db_integrity|].
  split; [reflexivity|].
  exact (project_admin_has_access (fresh demo_db) 7 3
           demo_db_healthy demo_db_integrity eq_refl).
Defined.

Lemma stakeholder_can_modify_witness :
  fault (db (fresh outsider_db)) (TaskGet 42) = None
  ∧ fault (db (fresh outsider_db)) (ProjectGet 7) = Some "OperationalError"
  ∧ value (check_task_access 42 8) (fresh outsider_db) = Returned (false, None, None)
  ∧ value (can_modify_task 42 8) (fresh outsider_db)
    = Returned (true, Some outsider_task)
  ∧ value (can_modify_task 42 9) (fresh outsider_db)
    = Returned (true, Some outsider_task).
Proof.
  assert (Hnd : NoDup (t_id <$> tasks (db (fresh outsider_db))))
    by apply NoDup_singleton.
  assert (HT : outsider_task ∈ tasks (db (fresh outsider_db))) by (simpl; by left).
  split; [reflexivity|]. split; [reflexivity|]. split; [reflexivity|]. split.
  - exact (proj1 (stakeholder_can_modify (fresh outsider_db) 42 8 outsider_task
                    eq_refl Hnd HT eq_refl (or_introl eq_refl))).
  - exact (proj1 (stakeholder_can_modify (fresh outsider_db) 42 9 outsider_task
                    eq_refl Hnd HT eq_refl (or_intror eq_refl))).
Defined.

Lemma owner_access_needs_project_only_witness :
  fault (db (fresh member_down_db)) (ProjectGet 7) = None
  ∧ fault (db (fresh member_down_db)) (ProjectMemberFirst 7 1 None)
    = Some "OperationalError"
  ∧ value (check_project_access 7 1) (fresh member_down_db)
    = Returned (true, Some project7, Some "owner")
  ∧ value (check_project_admin 7 1) (fresh member_down_db) = Returned true.
Proof.
  assert (Hnd : NoDup (p_id <$> projects (db (fresh member_down_db))))
    by apply NoDup_singleton.
  assert (HP : project7 ∈ projects (db (fresh member_down_db)))
    by (simpl; by left).
  destruct (owner_access_needs_project_only (fresh member_down_db) 7 1 project7
              eq_refl Hnd HP eq_refl eq_refl) as (Hacc & _ & Hadm & _).
  split; [reflexivity|]. split; [reflexivity|]. split; [exact Hacc | exact Hadm].
Defined.

Lemma modify_means_stakeholder_or_admin_witness :
  value (can_modify_task 42 3) (fresh demo_db) = Returned (true, Some task42)
  ∧ (t_created_by task42 = 3
     ∨ t_assigned_to task42 = Some 3
     ∨ ∃ role, value (check_task_access 42 3) (fresh demo_db)
                 = Returned (true, Some task42, Some role)
               ∧ (role = "owner" ∨ role = "admin")).
Proof.
  split; [reflexivity|].
  exact (modify_means_stakeholder_or_admin (fresh demo_db) 42 3 task42
           demo_db_healthy demo_db_integrity eq_refl).
Defined.

(** User 3, admin of project 7, through the service and through
    [services/permissions.py]. *)
Lemma service_check_access_propagates_witness :
  healthy (db (fresh demo_db))
  ∧ value (check_project_access 7 3) (fresh demo_db)
    = Returned (true, Some project7, Some "admin")
  ∧ value (check_access 7 3) (fresh demo_db) = Returned (true, Some "admin").
Proof.
  assert (Hh : healthy (db (fresh demo_db))) by exact demo_db_healthy.
  destruct (proj2 (service_check_access_propagates (fresh demo_db) 7 3) Hh)
    as (a & P & ro & Hp & Hs).
  assert (Hperm : value (check_project_access 7 3) (fresh demo_db)
                  = Returned (true, Some project7, Some "admin")) by reflexivity.
  rewrite Hperm in Hp. injection Hp as <- <- <-.
  split; [exact Hh|]. split; [exact Hperm | exact Hs].
Defined.

Lemma check_admin_access_agrees_witness :
  healthy (db (fresh demo_db)) ∧ integrity (db (fresh demo_db))
  ∧ roles_valid (db (fresh demo_db))
  ∧ value (check_admin_access 7 3) (fresh demo_db)
    = value (check_project_admin 7 3) (fresh demo_db)
  ∧ value (check_admin_access 7 2) (fresh demo_db)
    = value (check_project_admin 7 2) (fresh demo_db).
Proof.
  split; [exact demo_db_healthy|]. split; [exact demo_db_integrity|].
  split; [exact demo_db_roles_valid|]. split.
  - exact (check_admin_access_agrees (fresh demo_db) 7 3 demo_db_healthy
             demo_db_integrity demo_db_roles_valid).
  - exact (check_admin_access_agrees (fresh demo_db) 7 2 demo_db_healthy
             demo_db_integrity demo_db_roles_valid).
Defined.

Lemma owner_role_row_splits_admin_checks_witness :
  member_row (db (fresh owner_role_db)) 7 6 (mkProjectMember 1 6 7 "owner")
  ∧ value (check_admin_access 7 6) (fresh owner_role_db) = Returned true
  ∧ value (check_project_admin 7 6) (fresh owner_role_db) = Returned false
  ∧ value (check_admin 7 6) (fresh owner_role_db) = Returned false.
Proof.
  assert (Hh : healthy (db (fresh owner_role_db))) by (intros q; reflexivity).
  assert (HP : project7 ∈ projects (db (fresh owner_role_db)))
    by (simpl; by left).
  assert (Hr : member_row (db (fresh owner_role_db)) 7 6
                 (mkProjectMember 1 6 7 "owner"))
    by (repeat split; simpl; by left).
  split; [exact Hr|].
  apply (owner_role_row_splits_admin_checks (fresh owner_role_db) 7 6 project7
           (mkProjectMember 1 6 7 "owner") Hh owner_role_db_integrity HP eq_refl);
    [discriminate | exact Hr | reflexivity].
Defined.

Lemma can_delete_owner_only_witness :
  fault (db (fresh demo_db)) (ProjectGet 7) = None
  ∧ value (can_delete 7 1) (fresh demo_db) = Returned (Some true)
  ∧ value (can_delete 7 3) (fresh demo_db) = Returned (Some false)
  ∧ value (can_delete 8 1) (fresh demo_db) = Returned None
  ∧ ∃ v, value (can_delete 7 1) (fresh demo_db) = Returned v
         ∧ (truthy v = true →
            value (check_admin_access 7 1) (fresh demo_db) = Returned true).
Proof.
  split; [reflexivity|]. split; [reflexivity|]. split; [reflexivity|].
  split; [reflexivity|].
  destruct (can_delete_owner_only (fresh demo_db) 7 1 eq_refl
              (proj1 demo_db_integrity)) as (v & Hv & _ & _ & Hadm).
  exists v. split; [exact Hv | exact Hadm].
Defined.

Lemma mixin_check_member_ignores_owner_witness :
  healthy (db (fresh demo_db))
  ∧ value (check_member 7 1) (fresh demo_db) = Returned false
  ∧ value (check_project_member 7 1) (fresh demo_db) = Returned true.
Proof.
  split; [exact demo_db_healthy|].
  apply (mixin_check_member_ignores_owner (fresh demo_db) 7 1 project7
           demo_db_healthy (proj1 demo_db_integrity)).
  - simpl. by left.
  - reflexivity.
  - reflexivity.
  - intros r (Hr & _ & Hu). simpl in Hr.
    repeat (apply elem_of_cons in Hr as [->|Hr]; [discriminate|]).
    by apply elem_of_nil in Hr.
Defined.

End more_examples.

Section write_examples.
Import permissions services more_samples.

Lemma demo_world_project_keys : NoDup (p_id <$> projects (db (app demo_world))).
Proof. apply NoDup_singleton. Qed.

Lemma demo_world_task_keys : NoDup (t_id <$> tasks (db (app demo_world))).
Proof. apply NoDup_singleton. Qed.

Lemma demo_world_project7 : project7 ∈ projects (db (app demo_world)).
Proof. simpl. by left. Qed.

(** The owner deletes project 7; its admin (user 3) may not; project 8 does
    not exist and gives FORBIDDEN as well. *)
Lemma delete_project_owner_only_witness :
  sound demo_world
  ∧ value (delete_project 7 1) demo_world = Returned (ok true)
  ∧ value (delete_project 7 3) demo_world
    = Returned (forbidden "Only the project owner can delete the project")
  ∧ value (delete_project 8 1) demo_world
    = Returned (forbidden "Only the project owner can delete the project").
Proof.
  split; [exact demo_world_sound|]. split; [|split].
  - exact (proj1 (proj1 (delete_project_owner_only demo_world 7 1
                           demo_world_sound demo_world_project_keys)
                        project7 demo_world_project7 eq_refl eq_refl)).
  - apply (proj2 (delete_project_owner_only demo_world 7 3
                    demo_world_sound demo_world_project_keys)).
    intros (P & HP & _ & Ho). simpl in HP.
    apply list_elem_of_singleton in HP. subst P. discriminate.
  - apply (proj2 (delete_project_owner_only demo_world 8 1
                    demo_world_sound demo_world_project_keys)).
    intros (P & HP & Hid & _). simpl in HP.
    apply list_elem_of_singleton in HP. subst P. discriminate.
Defined.

Lemma delete_project_cascades_witness :
  sound demo_world
  ∧ value (check_project_access 7 3) (app demo_world)
    = Returned (true, Some project7, Some "admin")
  ∧ value (check_project_access 7 3)
          (app (world_after (delete_project 7 1) demo_world))
    = Returned (false, None, None)
  ∧ ¬ task42 ∈ tasks (db (app (world_after (delete_project 7 1) demo_world))).
Proof.
  destruct (delete_project_cascades demo_world 7 1 project7 demo_world_sound
              demo_world_project_keys demo_world_project7 eq_refl eq_refl)
    as (Hacc & _ & Htasks & _).
  split; [exact demo_world_sound|]. split; [reflexivity|].
  split; [exact (Hacc 3)|].
  intros Hin. apply Htasks in Hin as [_ Hne]. by apply Hne.
Defined.

(** User 2, a plain member, may not remove anybody; the admin (user 3) may
    not remove the owner; user 99 has no row. *)
Lemma remove_member_refusals_witness :
  sound demo_world
  ∧ value (remove_member 7 2 4) demo_world
    = Returned (forbidden "Only admins can remove members")
  ∧ value (remove_member 7 3 1) demo_world
    = Returned (fail VALIDATION_ERROR "Cannot remove the project owner")
  ∧ value (remove_member 7 3 99) demo_world = Returned (not_found "Member").
Proof.
  split; [exact demo_world_sound|]. split; [|split].
  - exact (proj1 (proj1 (remove_member_refusals demo_world 7 2 4
                           demo_world_sound demo_world_project_keys)
                        eq_refl)).
  - exact (proj1 (proj1 (proj2 (remove_member_refusals demo_world 7 3 1
                                  demo_world_sound demo_world_project_keys)
                               eq_refl project7 demo_world_project7 eq_refl)
                        eq_refl)).
  - apply (proj2 (proj2 (remove_member_refusals demo_world 7 3 99
                           demo_world_sound demo_world_project_keys)
                        eq_refl project7 demo_world_project7 eq_refl)).
    + discriminate.
    + intros r (Hr & _ & Hu). simpl in Hr.
      repeat (apply elem_of_cons in Hr as [->|Hr]; [discriminate|]).
      by apply elem_of_nil in Hr.
Defined.

(** The admin (user 3) removes user 2: user 2 is out, user 4 still in. *)
Lemma remove_member_revokes_access_witness :
  sound demo_world
  ∧ value (remove_member 7 3 2) demo_world = Returned (ok true)
  ∧ value (check_project_access 7 2)
          (app (world_after (remove_member 7 3 2) demo_world))
    = Returned (false, None, None)
  ∧ value (check_project_access 7 4)
          (app (world_after (remove_member 7 3 2) demo_world))
    = Returned (true, Some project7, Some "member").
Proof.
  assert (Hr : member_row (db (app demo_world)) 7 2
                 (mkProjectMember 1 2 7 "member"))
    by (repeat split; simpl; by left).
  destruct (remove_member_revokes_access demo_world 7 3 2 project7
              (mkProjectMember 1 2 7 "member") demo_world_sound
              demo_db_integrity demo_db_member_keys eq_refl
              demo_world_project7 eq_refl)
    as (Hv & _ & Hout & Hrest); [discriminate | exact Hr |].
  split; [exact demo_world_sound|]. split; [exact Hv|]. split; [exact Hout|].
  rewrite (Hrest 7 4); [reflexivity | right; discriminate].
Defined.

Lemma add_member_keeps_invariants_witness :
  session demo_world = []
  ∧ NoDup (m_id <$> project_members (db (app demo_world)))
  ∧ integrity (db (app (world_after
                          (add_member 7 3 "eve@example.org" None) demo_world)))
  ∧ NoDup (m_id <$> project_members
             (db (app (world_after (add_member 7 3 "eve@example.org" None)
                                   demo_world))))
  ∧ m_id <$> project_members
               (db (app (world_after (add_member 7 3 "eve@example.org" None)
                                     demo_world)))
    = [1; 2; 3; 4]
  ∧ owner_not_member
      (db (app (world_after (add_member 7 3 "eve@example.org" None) demo_world)))
  ∧ value (add_member 7 3 "ann@example.org" None) demo_world
    = Returned (conflict "Owner is already part of the project").
Proof.
  split; [reflexivity|]. split; [exact demo_db_member_keys|].
  destruct (add_member_keeps_invariants demo_world 7 3 "eve@example.org" None
              eq_refl demo_db_integrity demo_db_member_keys
              demo_db_owner_not_member) as (Hi & Hk & Ho).
  split; [exact Hi|]. split; [exact Hk|]. split; [reflexivity|].
  split; [exact Ho | reflexivity].
Defined.

(** The admin (user 3) adds Eve, as "member" and as "owner". *)
Lemma add_member_grants_access_witness :
  sound demo_world
  ∧ (∃ dto, value (add_member 7 3 "eve@example.org" None) demo_world
            = Returned (ok dto)
          ∧ value (check_project_access 7 (dto_user_id dto))
                  (app (world_after (add_member 7 3 "eve@example.org" None)
                                    demo_world))
            = Returned (true, Some project7, Some "member"))
  ∧ (∃ dto, value (add_member 7 3 "eve@example.org" (Some "owner")) demo_world
            = Returned (ok dto)
          ∧ dto_role dto = "owner").
Proof.
  split; [exact demo_world_sound|]. split.
  - eexists. split; [reflexivity|].
    destruct (add_member_grants_access demo_world 7 3 "eve@example.org" None _
                demo_world_sound eq_refl) as (_ & _ & P & HP & _ & Hacc).
    simpl in HP. apply list_elem_of_singleton in HP. subst P. exact Hacc.
  - eexists. split; [reflexivity|].
    exact (proj1 (proj2 (add_member_grants_access demo_world 7 3
                           "eve@example.org" (Some "owner") _
                           demo_world_sound eq_refl))).
Defined.

(** User 4, a plain member who neither created task 42 nor is its assignee:
    [can_modify_task] refuses, the service's [delete_task] deletes. *)
Lemma service_delete_task_witness :
  sound demo_world
  ∧ value (can_modify_task 42 4) (app demo_world) = Returned (false, None)
  ∧ value (delete_task 42 4) demo_world = Returned (ok true)
  ∧ value (delete_task 42 99) demo_world
    = Returned (forbidden "You are not a member of this project")
  ∧ value (delete_task 43 4) demo_world = Returned (not_found "Task").
Proof.
  assert (HT : task42 ∈ tasks (db (app demo_world))) by (simpl; by left).
  split; [exact demo_world_sound|]. split; [reflexivity|]. split; [|split].
  - exact (proj1 (proj1 (proj1 (service_delete_task demo_world 42 4
                                  demo_world_sound demo_world_task_keys)
                               task42 (Some "member") HT eq_refl)
                        eq_refl)).
  - exact (proj1 (proj2 (proj1 (service_delete_task demo_world 42 99
                                  demo_world_sound demo_world_task_keys)
                               task42 None HT eq_refl)
                        eq_refl)).
  - apply (proj2 (service_delete_task demo_world 43 4
                    demo_world_sound demo_world_task_keys)).
    intros T HT'. simpl in HT'. apply list_elem_of_singleton in HT'.
    subst T. discriminate.
Defined.

End write_examples.
